(** * Session engine of xyzj/llm: bounded history, streaming assembly,
      tool dispatch, storage and the session registry.

    The Go packages [history], [chat], [storage], [mcpcli] and [llm] are
    embedded as Rocq functions, one module per package.  Go pointers that
    may be nil are options, run-time panics (nil dereference, write to a
    nil map) are an explicit outcome, and the external collaborators (LLM
    backend, MCP tool servers, JSON codec, hash) are parameters. *)

From Stdlib Require Import ZArith Lia Ascii.
From stdpp Require Import base option list strings gmap.

Set Default Proof Using "Type".
Local Open Scope Z_scope.

(** ** Go run-time conventions *)

(** A Go [int] on a 64-bit platform: arithmetic wraps around. *)
Definition wrap64 (z : Z) : Z := (z + 2 ^ 63) mod 2 ^ 64 - 2 ^ 63.

(** The result of running a piece of Go code that may panic. *)
Inductive res (X : Type) : Type :=
  | Ret (x : X)
  | Panic.
Arguments Ret {X} x.
Arguments Panic {X}.

Definition res_bind {X Y} (f : X → res Y) (r : res X) : res Y :=
  match r with
  | Ret x => f x
  | Panic => Panic
  end.

#[global] Instance res_ret : MRet res := @Ret.
#[global] Instance res_mbind : MBind res := @res_bind.
#[global] Instance res_fmap : FMap res :=
  λ X Y f r, res_bind (λ x, Ret (f x)) r.

Definition returns {X} (r : res X) : Prop := ∃ x, r = Ret x.

(** [len(l) > 0] *)
Definition nonempty {X : Type} (l : list X) : bool :=
  match l with
  | [] => false
  | _ :: _ => true
  end.

(** The [range] loop over a slice, with a body that may panic. *)
Fixpoint for_range {X S : Type} (body : X → S → res S) (l : list X) (s : S) : res S :=
  match l with
  | [] => Ret s
  | x :: l => s' ← body x s; for_range body l s'
  end.

(** ** container/ring, as used by package history *)

Module ring.
Section ring.
Context {A : Type}.

(** A non-nil [*ring.Ring]: the [Value] fields of the elements of the
    ring it belongs to, listed along [next], and the index of the
    element pointed to.  A [Value] is an [any]: nil ([None]) or a value
    of the element type. *)
Record Ring : Type := mk { elems : list (option A); at_ : nat }.

(** [ring.New(n)]: nil when [n <= 0], else [n] elements with nil Values. *)
Definition New (n : Z) : option Ring :=
  if decide (n ≤ 0) then None
  else Some (mk (replicate (Z.to_nat n) None) 0).

(** [r.Len()]; nil rings have length 0. *)
Definition Len (r : option Ring) : Z :=
  match r with
  | None => 0
  | Some r => Z.of_nat (length (elems r))
  end.

(** [r.Next()] on a ring built by [New]: the element after [r]. *)
Definition Next (r : Ring) : Ring :=
  mk (elems r) (rotate_nat_add (at_ r) 1 (length (elems r))).

(** [r.Value = v] *)
Definition set_Value (v : option A) (r : Ring) : Ring :=
  mk (<[at_ r := v]> (elems r)) (at_ r).

(** The [Value] of element [i] of the ring [r] points into. *)
Definition value_at (r : option Ring) (i : nat) : option A :=
  r ≫= λ r, default None (elems r !! i).

(** [r.Do(f)]: calls [f] on the Value of every element, starting at [r]
    and following [next]; on a nil ring it does nothing.  The closure
    [f] acts on the variables it captures, of type [S]; these may hold
    the ring itself ([ring_of]), and each Value is read when its
    element is reached. *)
Definition Do {S : Type} (ring_of : S → option Ring)
    (f : option A → S → S) (s : S) : S :=
  match ring_of s with
  | None => s
  | Some r =>
      foldl (λ s k,
               f (value_at (ring_of s)
                    (rotate_nat_add (at_ r) k (length (elems r)))) s)
        s (seq 0 (length (elems r)))
  end.

(** The Values of the ring in the order [Do] visits them. *)
Definition view (r : Ring) : list (option A) := rotate (at_ r) (elems r).

(** The pointer is to an element of the ring. *)
Definition wf (r : Ring) : Prop := (at_ r < length (elems r))%nat.
End ring.
Arguments Ring : clear implicits.
End ring.

(** ** Package history *)

Module history.
Section history.
(** [A] stands for [*model.ChatCompletionMessage]. *)
Context {A : Type}.

Record History : Type := mk { data : option (ring.Ring A); maxContext : Z }.

Definition New (context : Z) : History :=
  mk (ring.New context) (wrap64 (context * 2)).

(** One iteration of [u.data.Value = msg; u.data = u.data.Next()]; the
    assignment through a nil [u.data] panics. *)
Definition put (msg : A) (u : History) : res History :=
  match data u with
  | None => Panic
  | Some r =>
      Ret (mk (Some (ring.Next (ring.set_Value (Some msg) r))) (maxContext u))
  end.

Definition Store (msg : A) (u : History) : res (bool * History) :=
  u' ← put msg u; mret (true, u').

Fixpoint StoreMany (msgs : list A) (u : History) : res History :=
  match msgs with
  | [] => mret u
  | msg :: msgs => u' ← put msg u; StoreMany msgs u'
  end.

(** [u.data.Do(func(a any) { u.data.Value = nil })]: the closure
    ignores its argument and writes through [u.data], which is not nil
    when [Do] calls it. *)
Definition Clear (u : History) : History :=
  ring.Do data
    (λ _ u, mk (ring.set_Value None <$> data u) (maxContext u)) u.

Definition Len (u : History) : Z := ring.Len (data u).

Definition Slice (u : History) : list A :=
  ring.Do (λ _, data u)
    (λ a x, match a with
            | None => x
            | Some m => x ++ [m]
            end) [].

(** The state of a buffer that [New] built: a nil ring, or a pointer
    to an element of its ring. *)
Definition ok (u : History) : Prop :=
  match data u with
  | None => True
  | Some r => ring.wf r
  end.

(** A sequence of calls on one buffer. *)
Inductive call : Type :=
  | CallStore (msg : A)
  | CallStoreMany (msgs : list A)
  | CallClear.

Definition exec (c : call) (u : History) : res History :=
  match c with
  | CallStore msg => snd <$> Store msg u
  | CallStoreMany msgs => StoreMany msgs u
  | CallClear => Ret (Clear u)
  end.

Definition run (cs : list call) (u : History) : res History :=
  for_range exec cs u.

(** The messages a call appends. *)
Definition appended (c : call) : list A :=
  match c with
  | CallStore msg => [msg]
  | CallStoreMany msgs => msgs
  | CallClear => []
  end.

Definition is_append (c : call) : bool :=
  match c with
  | CallClear => false
  | _ => true
  end.

(** The shape of the ring in every state [New], [Store], [StoreMany] and
    [Clear] lead to: from the element pointed to, nil Values first, then
    the stored messages, oldest first. *)
Definition packed (u : History) : Prop :=
  match data u with
  | None => True
  | Some r =>
      ring.wf r
      ∧ ∃ (k : nat) (l : list A), ring.view r = replicate k None ++ (Some <$> l)
  end.
End history.
Arguments History : clear implicits.
Arguments call : clear implicits.
End history.

(** ** The SDK's message types, as far as the code touches them *)

Module model.
Definition ChatMessageRoleUser : string := "user".
Definition ChatMessageRoleAssistant : string := "assistant".
Definition ChatMessageRoleTool : string := "tool".
Definition ToolTypeFunction : string := "function".

(** [Content] and [StringValue] are pointers in Go. *)
Record ChatCompletionMessageContent : Type :=
  { StringValue : option string }.

Record ChatCompletionMessage : Type := {
  Role : string;
  Content : option ChatCompletionMessageContent;
  ToolCallID : string
}.

Record FunctionCall : Type := { Name : string; Arguments : string }.

Record ToolCall : Type := { ID : string; Function : FunctionCall; Type_ : string }.

Record FunctionDefinition : Type :=
  { FName : string; Description : string; Parameters : list (string * string) }.

Record Tool : Type := { TType : string; TFunction : FunctionDefinition }.

(** One streamed choice: [recv.Choices[i].Delta]. *)
Record ChatCompletionStreamChoiceDelta : Type := {
  DContent : string;
  DRole : string;
  DToolCalls : list ToolCall
}.

Record ChatCompletionStreamResponse : Type :=
  { SChoices : list ChatCompletionStreamChoiceDelta }.

(** One choice of a complete response: [resp.Choices[i].Message]. *)
Record ChatCompletionChoice : Type := {
  MRole : string;
  MContent : option ChatCompletionMessageContent;
  MToolCalls : list ToolCall
}.

Record ChatCompletionResponse : Type :=
  { Choices : list ChatCompletionChoice }.

Record CreateChatCompletionRequest : Type := {
  Model : string;
  Messages : list ChatCompletionMessage;
  Stream : bool;
  Tools : list Tool
}.
End model.

#[global] Instance content_eq_dec : EqDecision model.ChatCompletionMessageContent.
Proof. solve_decision. Defined.
#[global] Instance message_eq_dec : EqDecision model.ChatCompletionMessage.
Proof. solve_decision. Defined.

(** Go's [error] values; [io.EOF] is the one the code compares against. *)
Inductive error : Type :=
  | io_EOF
  | Err (msg : string).

#[global] Instance error_eq_dec : EqDecision error.
Proof. solve_decision. Defined.

(** A Go result pair [(x, nil)] or [(nil, err)]. *)
Inductive result (X : Type) : Type :=
  | OK (x : X)
  | Error (e : error).
Arguments OK {X} x.
Arguments Error {X} e.

#[global] Instance result_eq_dec `{EqDecision X} : EqDecision (result X).
Proof. solve_decision. Defined.

(** The caller's sink [func(data []byte) error]: its verdict on a write may
    depend on what it was handed before. *)
Definition WriteFunc : Type := list string → string → option error.

(** What [stream.Recv()] returns. *)
Inductive recv_result : Type :=
  | Recv (r : model.ChatCompletionStreamResponse)
  | RecvErr (e : error).

(** The LLM backend behind [arkruntime.Client]. *)
Class Backend : Type := {
  CreateChatCompletionStream :
    model.CreateChatCompletionRequest → result (list recv_result);
  CreateChatCompletion :
    model.CreateChatCompletionRequest → result model.ChatCompletionResponse
}.

(** ** Package chat *)

Module chat.
Import model.

(** Options of one request. *)
Record Opt : Type := mkOpt {
  toolcalled : list ChatCompletionMessage;
  roleSystem : list ChatCompletionMessage;
  tools : list Tool;
  writeFunc : WriteFunc;
  model : string;
  stream : bool
}.
Definition Opts : Type := Opt → Opt.

Record ChatOpt : Type := mkChatOpt { maxhistory : Z; apikey : string }.
Definition ChatOpts : Type := ChatOpt → ChatOpt.

Definition WithMaxHistory (n : Z) : ChatOpts :=
  λ opt, mkChatOpt n (apikey opt).
Definition WithAPIKey (k : string) : ChatOpts :=
  λ opt, mkChatOpt (maxhistory opt) k.

Definition WithRoleSystem (msg : list ChatCompletionMessage) : Opts :=
  λ opt, mkOpt (toolcalled opt) msg (tools opt) (writeFunc opt) (model opt) (stream opt).
Definition WithToolCalled (tc : list ChatCompletionMessage) : Opts :=
  λ opt, mkOpt tc (roleSystem opt) (tools opt) (writeFunc opt) (model opt) (stream opt).
Definition WithWriteFunc (f : WriteFunc) : Opts :=
  λ opt, mkOpt (toolcalled opt) (roleSystem opt) (tools opt) f (model opt) (stream opt).
Definition WithModel (m : string) : Opts :=
  λ opt, mkOpt (toolcalled opt) (roleSystem opt) (tools opt) (writeFunc opt) m (stream opt).
Definition WithStream (s : bool) : Opts :=
  λ opt, mkOpt (toolcalled opt) (roleSystem opt) (tools opt) (writeFunc opt) (model opt) s.
Definition WithTools (ts : list Tool) : Opts :=
  λ opt, mkOpt (toolcalled opt) (roleSystem opt) ts (writeFunc opt) (model opt) (stream opt).

(** A session.  The mutex is left out: turns are run one at a time
    here.  [lastMessage] is a clock reading. *)
Record Chat : Type := mkChat {
  history : history.History ChatCompletionMessage;
  lastMessage : Z;
  c_apikey : string;
  c_model : string;
  id : string
}.

Definition New (id modelName : string) (opts : list ChatOpts) : Chat :=
  let co := foldl (λ co o, o co) (mkChatOpt 500 "your_api_key") opts in
  mkChat (history.New (maxhistory co)) 0 (apikey co) modelName id.

Definition with_history (h : history.History ChatCompletionMessage) (c : Chat) : Chat :=
  mkChat h (lastMessage c) (c_apikey c) (c_model c) (id c).

Definition SetHistory (h : list ChatCompletionMessage) (c : Chat) : res Chat :=
  u ← history.StoreMany h (history c); mret (with_history u c).

Definition text_message (role content : string) : ChatCompletionMessage :=
  {| Role := role;
     Content := Some {| StringValue := Some content |};
     ToolCallID := "" |}.

(** The local variables of [doStream]'s receive loop, and what the sink
    has been handed so far. *)
Record assembly : Type := mkAssembly {
  toolCallMap : gmap string ToolCall;
  lastCallID : string;
  message : string;
  written : list string
}.

(** Body of [for _, tc := range recv.Choices[0].Delta.ToolCalls]. *)
Definition on_tool_delta (tc : ToolCall) (st : assembly) : res assembly :=
  if decide (ID tc ≠ "") then
    Ret (mkAssembly
           (match toolCallMap st !! ID tc with
            | None =>
                <[ID tc := {| ID := ID tc;
                              Function := {| Name := Name (Function tc);
                                             Arguments := Arguments (Function tc) |};
                              Type_ := Type_ tc |}]> (toolCallMap st)
            | Some _ => toolCallMap st
            end)
           (ID tc) (message st) (written st))
  else
    match toolCallMap st !! lastCallID st with
    | None => Panic
    | Some t =>
        Ret (mkAssembly
               (<[lastCallID st :=
                    {| ID := ID t;
                       Function := {| Name := Name (Function t);
                                      Arguments := Arguments (Function t)
                                                   +:+ Arguments (Function tc) |};
                       Type_ := Type_ t |}]> (toolCallMap st))
               (lastCallID st) (message st) (written st))
    end.

(** The text part of one received chunk: forward to [w], then append to
    the builder.  [Some err] is the early [return nil, err]. *)
Definition on_content (w : WriteFunc) (d : ChatCompletionStreamChoiceDelta)
    (st : assembly) : option error * assembly :=
  if decide (DRole d = ChatMessageRoleAssistant ∧ DContent d ≠ "") then
    let st' := mkAssembly (toolCallMap st) (lastCallID st) (message st)
                 (written st ++ [DContent d]) in
    match w (written st) (DContent d) with
    | Some err => (Some err, st')
    | None =>
        (None, mkAssembly (toolCallMap st') (lastCallID st')
                 (message st' +:+ DContent d) (written st'))
    end
  else (None, st).

(** [for !stream.IsFinished { recv, err := stream.Recv() ... }] over what
    the stream delivers; a stream with nothing left is finished. *)
Fixpoint recv_loop (w : WriteFunc) (stream : list recv_result) (st : assembly)
    : res (option error * assembly) :=
  match stream with
  | [] => Ret (None, st)
  | RecvErr err :: _ =>
      if decide (err = io_EOF) then Ret (None, st) else Ret (Some err, st)
  | Recv r :: stream =>
      match SChoices r with
      | [] => recv_loop w stream st
      | d :: _ =>
          match on_content w d st with
          | (Some err, st') => Ret (Some err, st')
          | (None, st') =>
              st'' ← for_range on_tool_delta (DToolCalls d) st';
              recv_loop w stream st''
          end
      end
  end.

(** The locals as [doStream] declares them, before a sink that has been
    handed [sink]. *)
Definition start (sink : list string) : assembly := mkAssembly ∅ "" "" sink.

Definition is_recv (x : recv_result) : bool :=
  match x with
  | Recv _ => true
  | RecvErr _ => false
  end.

(** The first tool-call delta the receive loop comes to. *)
Fixpoint first_tool_delta (stream : list recv_result) : option ToolCall :=
  match stream with
  | [] => None
  | RecvErr _ :: _ => None
  | Recv r :: stream =>
      match SChoices r with
      | [] => first_tool_delta stream
      | d :: _ =>
          match DToolCalls d with
          | [] => first_tool_delta stream
          | tc :: _ => Some tc
          end
      end
  end.

(** A streaming call that ends in an error [e], with [sink'] what the
    sink has been handed by then: the stream cannot be opened; or, after
    chunks that were taken in full, [Recv] returns an error other than
    [io.EOF]; or the sink refuses the text of the next chunk. *)
Inductive stream_fails (w : WriteFunc) (sink : list string)
    : result (list recv_result) → error → list string → Prop :=
  | fails_open e : stream_fails w sink (Error e) e sink
  | fails_recv pre e rest st :
      forallb is_recv pre = true →
      recv_loop w pre (start sink) = Ret (None, st) →
      e ≠ io_EOF →
      stream_fails w sink (OK (pre ++ RecvErr e :: rest)) e (written st)
  | fails_sink pre r d ds rest st e st' :
      forallb is_recv pre = true →
      recv_loop w pre (start sink) = Ret (None, st) →
      SChoices r = d :: ds →
      on_content w d st = (Some e, st') →
      stream_fails w sink (OK (pre ++ Recv r :: rest)) e (written st').

Definition reply : Type := result (gmap string ToolCall) * Chat * list string.

Section with_backend.
Context {backend : Backend}.

Definition doStream (c : Chat) (req : CreateChatCompletionRequest)
    (w : WriteFunc) (sink : list string) : res reply :=
  match CreateChatCompletionStream req with
  | Error err => Ret (Error err, c, sink)
  | OK stream =>
      '(err, st) ← recv_loop w stream (start sink);
      match err with
      | Some err => Ret (Error err, c, written st)
      | None =>
          if decide (message st ≠ "") then
            '(_, h) ← history.Store
                        (text_message ChatMessageRoleAssistant (message st))
                        (history c);
            Ret (OK (toolCallMap st), with_history h c, written st)
          else Ret (OK (toolCallMap st), c, written st)
      end
  end.

(** The loop over [resp.Choices[0].Message.ToolCalls] in [do]. *)
Definition collect_tool_calls (tcs : list ToolCall) : gmap string ToolCall :=
  foldl (λ m tc,
           if decide (ID tc ≠ "") then
             match m !! ID tc with
             | None =>
                 <[ID tc := {| ID := ID tc;
                               Function := {| Name := Name (Function tc);
                                              Arguments := Arguments (Function tc) |};
                               Type_ := Type_ tc |}]> m
             | Some _ => m
             end
           else m) ∅ tcs.

Definition do (c : Chat) (req : CreateChatCompletionRequest)
    (w : WriteFunc) (sink : list string) : res reply :=
  match CreateChatCompletion req with
  | Error err => Ret (Error err, c, sink)
  | OK resp =>
      match Choices resp with
      | [] => Ret (OK ∅, c, sink)
      | ch :: _ =>
          let calls := collect_tool_calls (MToolCalls ch) in
          if decide (MRole ch = ChatMessageRoleAssistant) then
            match MContent ch with
            | None => Panic
            | Some content =>
                match StringValue content with
                | None => Ret (OK calls, c, sink)
                | Some s =>
                    match w sink s with
                    | Some err => Ret (Error err, c, sink ++ [s])
                    | None =>
                        '(_, h) ← history.Store (text_message (MRole ch) s)
                                    (history c);
                        Ret (OK calls, with_history h c, sink ++ [s])
                    end
                end
            end
          else Ret (OK calls, c, sink)
      end
  end.

(** The options of a request: the defaults, then [opts] in order. *)
Definition options (c : Chat) (opts : list Opts) : Opt :=
  foldl (λ co o, o co) (mkOpt [] [] [] (λ _ _, None) (c_model c) false) opts.

(** What [Chat.Chat] appends to the history before it calls the model:
    the user message, if any, then the tool results, if any. *)
Definition append_turn (co : Opt) (message : string)
    (h : history.History ChatCompletionMessage)
    : res (history.History ChatCompletionMessage) :=
  h1 ← (if decide (message ≠ "") then
          snd <$> history.Store (text_message ChatMessageRoleUser message) h
        else Ret h);
  if nonempty (toolcalled co) then history.StoreMany (toolcalled co) h1
  else Ret h1.

Definition request (co : Opt) (h : history.History ChatCompletionMessage)
    : CreateChatCompletionRequest :=
  {| Model := model co;
     Messages := roleSystem co ++ history.Slice h;
     Stream := stream co;
     Tools := if nonempty (toolcalled co) then [] else tools co |}.

(** [Chat.Chat]; [now] is what [time.Now()] reads when the deferred
    function runs. *)
Definition Chat_Chat (now : Z) (c : Chat) (message : string)
    (opts : list Opts) (sink : list string) : res reply :=
  let co := options c opts in
  h ← append_turn co message (history c);
  '(r, c', sink') ← (if stream co then doStream else do)
                      (with_history h c) (request co h) (writeFunc co) sink;
  Ret (r, mkChat (history c') now (c_apikey c') (c_model c') (id c'), sink').
End with_backend.

(** The text the receive loop forwards and gathers: the non-empty
    assistant text of the first choice of each chunk, up to the first
    error [Recv] returns. *)
Fixpoint texts (stream : list recv_result) : list string :=
  match stream with
  | [] => []
  | RecvErr _ :: _ => []
  | Recv r :: stream =>
      match SChoices r with
      | [] => texts stream
      | d :: _ =>
          if decide (DRole d = ChatMessageRoleAssistant ∧ DContent d ≠ "") then
            DContent d :: texts stream
          else texts stream
      end
  end.

Definition join (l : list string) : string := foldr String.append "" l.

(** The messages one turn puts into the history: the user message if
    [message] is not empty, the tool results, and the assistant message
    if the model's text [answer] is not empty. *)
Definition turn_messages (co : Opt) (message answer : string)
    : list ChatCompletionMessage :=
  (if decide (message ≠ "") then [text_message ChatMessageRoleUser message] else [])
  ++ toolcalled co
  ++ (if decide (answer ≠ "") then [text_message ChatMessageRoleAssistant answer]
      else []).

(** A tool-call map in which every entry is kept under its own id, and
    no entry under the empty id. *)
Definition keyed (m : gmap string ToolCall) : Prop :=
  ∀ k t, m !! k = Some t → model.ID t = k ∧ k ≠ "".

Definition ID (c : Chat) : string := id c.
Definition LastMessage (c : Chat) : Z := lastMessage c.
Definition History (c : Chat) : list ChatCompletionMessage :=
  history.Slice (history c).
End chat.

(** ** External helpers of xyzj/toolbox *)

(** [crypto.GetSHA1]. *)
Class Crypto : Type := { GetSHA1 : string → string }.

(** [json]: the decoded argument object of a tool call, and the codec for
    messages. *)
Class Json : Type := {
  Args : Type;
  UnmarshalArgs : string → result Args;
  MarshalMessages : list model.ChatCompletionMessage → result string;
  UnmarshalMessage : string → result model.ChatCompletionMessage
}.

(** [json.Unmarshal] into a slice of messages. *)
Class JsonList {json : Json} : Type := {
  UnmarshalMessages : string → result (list model.ChatCompletionMessage)
}.

(** ** Package history: the JSON methods *)

Module history_json.
Import model.
Section history_json.
Context {json : Json} {json_list : JsonList}.
Implicit Types u : history.History ChatCompletionMessage.

Definition MarshalJSON u : result string := MarshalMessages (history.Slice u).

Definition ToJSON u : string :=
  match MarshalMessages (history.Slice u) with
  | Error _ => ""
  | OK b => b
  end.

(** The second component is the error [FromJSON] returns. *)
Definition FromJSON (s : string) u
    : res (option error * history.History ChatCompletionMessage) :=
  match UnmarshalMessages s with
  | Error err => Ret (Some err, u)
  | OK a => u' ← history.StoreMany a u; Ret (None, u')
  end.
End history_json.
End history_json.

(** ** Package storage *)

Module storage.
Import model.

(** The [Storage] interface. *)
Class StorageImpl (T : Type) : Type := {
  Store : string → list ChatCompletionMessage → T → option error * T;
  Load : string → T → result (list ChatCompletionMessage);
  Clear : T → option error * T
}.

(** A value of interface type [Storage]: some implementation and its
    receiver. *)
Record Storage : Type := mkStorage {
  impl : Type;
  impl_ops : StorageImpl impl;
  self : impl
}.

(** *** memory.go *)

Record MemoryStorage : Type :=
  mkMemory { data : gmap string (list ChatCompletionMessage) }.

Definition NewMemoryStorage : MemoryStorage := mkMemory ∅.

Definition MemoryStorage_Clear (s : MemoryStorage) : option error * MemoryStorage :=
  (None, mkMemory ∅).

Definition MemoryStorage_Store (chatid : string) (msg : list ChatCompletionMessage)
    (s : MemoryStorage) : option error * MemoryStorage :=
  let d := match data s !! chatid with
           | None => <[chatid := []]> (data s)
           | Some _ => data s
           end in
  (None, mkMemory (<[chatid := msg]> d)).

Definition MemoryStorage_Load (chatid : string) (s : MemoryStorage)
    : result (list ChatCompletionMessage) :=
  match data s !! chatid with
  | None => OK []
  | Some h => OK h
  end.

#[global] Instance memory_storage : StorageImpl MemoryStorage :=
  {| Store := MemoryStorage_Store;
     Load := MemoryStorage_Load;
     Clear := MemoryStorage_Clear |}.

(** *** file.go, over toolbox's [db.BoltDB] *)

(** The database file: key/value pairs in key order, one per key. *)
Definition BoltDB : Type := list (string * string).

Fixpoint Write (k v : string) (d : BoltDB) : BoltDB :=
  match d with
  | [] => [(k, v)]
  | (k', v') :: d' =>
      if decide (k = k') then (k, v) :: d'
      else if String.ltb k k' then (k, v) :: d
      else (k', v') :: Write k v d'
  end.

Definition Delete (k : string) (d : BoltDB) : BoltDB :=
  filter (λ kv, kv.1 ≠ k) d.

(** [db.ForEach(f)]: [f] on every pair in key order, until one call
    returns an error; [f] acts on captured variables of type [S]. *)
Fixpoint ForEach {S : Type} (f : string → string → S → option error * S)
    (d : BoltDB) (s : S) : option error * S :=
  match d with
  | [] => (None, s)
  | (k, v) :: d' =>
      match f k v s with
      | (Some err, s') => (Some err, s')
      | (None, s') => ForEach f d' s'
      end
  end.

Record FileStorage : Type := mkFile { f : string; db : BoltDB }.

Section with_json.
Context {json : Json}.

Definition FileStorage_Clear (s : FileStorage) : option error * FileStorage :=
  (None, mkFile (f s) (ForEach (λ k _ d, (None, Delete k d)) (db s) (db s)).2).

(** The callback decodes each stored value as one message and appends
    it to [data]; [chatid] is not used, and the error [ForEach] may
    report is dropped. *)
Definition FileStorage_Load (chatid : string) (s : FileStorage)
    : result (list ChatCompletionMessage) :=
  OK (ForEach (λ k v data,
                 match UnmarshalMessage v with
                 | Error err => (Some err, data)
                 | OK x => (None, data ++ [x])
                 end) (db s) []).2.

Definition FileStorage_Store (chatid : string) (history : list ChatCompletionMessage)
    (s : FileStorage) : option error * FileStorage :=
  match MarshalMessages history with
  | Error err => (Some err, s)
  | OK xs => (None, mkFile (f s) (Write chatid xs (db s)))
  end.

#[global] Instance file_storage : StorageImpl FileStorage :=
  {| Store := FileStorage_Store;
     Load := FileStorage_Load;
     Clear := FileStorage_Clear |}.
End with_json.

(** A sequence of calls on one [MemoryStorage]. *)
Inductive memory_call : Type :=
  | MStore (chatid : string) (msg : list ChatCompletionMessage)
  | MClear.

Definition memory_exec (s : MemoryStorage) (c : memory_call) : MemoryStorage :=
  match c with
  | MStore chatid msg => (MemoryStorage_Store chatid msg s).2
  | MClear => (MemoryStorage_Clear s).2
  end.

(** What the calls leave under [chatid]: the list of the last [Store]
    to it since the last [Clear], or [before] when there was neither. *)
Definition last_stored (chatid : string) (before : list ChatCompletionMessage)
    (cs : list memory_call) : list ChatCompletionMessage :=
  foldl (λ h c, match c with
                | MStore k msg => if decide (k = chatid) then msg else h
                | MClear => []
                end) before cs.

(** *** redis.go, over go-redis *)

Definition chatHistoryPrefix : string := "llm_chats_histories_".

Record Opt : Type := mkOpt { historySuffix : string }.
Definition Opts : Type := Opt → Opt.
Definition WithHistorySuffix (suffix : string) : Opts := λ _, mkOpt suffix.

(** The server: its hashes by key, each a map from field to value.  It
    answers every command; [redis.Nil] is the error for a missing field. *)
Definition Redis : Type := gmap string (gmap string string).
Definition redis_Nil : error := Err "redis: nil".

Definition Del (key : string) (srv : Redis) : Redis := delete key srv.

Definition HGet (key field : string) (srv : Redis) : result string :=
  match srv !! key ≫= λ h, h !! field with
  | Some val => OK val
  | None => Error redis_Nil
  end.

Definition HSet (key field val : string) (srv : Redis) : Redis :=
  <[key := <[field := val]> (default ∅ (srv !! key))]> srv.

Record RedisStorage : Type := mkRedis { cnf : Opt; historyKey : string }.

Section with_json_list.
Context {json : Json} {json_list : JsonList}.

Definition RedisStorage_Clear (s : RedisStorage) (srv : Redis) : option error * Redis :=
  (None, Del (chatHistoryPrefix +:+ historySuffix (cnf s)) srv).

Definition RedisStorage_Load (s : RedisStorage) (chatid : string) (srv : Redis)
    : result (list ChatCompletionMessage) :=
  match HGet (historyKey s) chatid srv with
  | Error err => Error err
  | OK val => UnmarshalMessages val
  end.

Definition RedisStorage_Store (s : RedisStorage) (chatid : string)
    (messages : list ChatCompletionMessage) (srv : Redis) : option error * Redis :=
  match MarshalMessages messages with
  | Error err => (Some err, srv)
  | OK data => (None, HSet (historyKey s) chatid data srv)
  end.

Definition NewRedisStorage (opts : list Opts) : RedisStorage :=
  let opt := foldl (λ opt o, o opt) (mkOpt "default") opts in
  mkRedis opt (chatHistoryPrefix +:+ historySuffix opt).

(** The receiver together with the server it talks to. *)
#[global] Instance redis_storage : StorageImpl (RedisStorage * Redis) :=
  {| Store chatid history x :=
       let '(e, srv) := RedisStorage_Store x.1 chatid history x.2 in (e, (x.1, srv));
     Load chatid x := RedisStorage_Load x.1 chatid x.2;
     Clear x := let '(e, srv) := RedisStorage_Clear x.1 x.2 in (e, (x.1, srv)) |}.
End with_json_list.
End storage.

(** ** Package mcpcli *)

(** The MCP servers behind mark3labs/mcp-go. *)
Class ToolServers {json : Json} : Type := {
  Client : Type;
  NewSSEMCPClient : string → result Client;
  Initialize : Client → option error;
  (** name, description and input-schema properties of each tool *)
  ListTools : Client → result (list (string * string * string));
  (** tool name, arguments, timeout; the answer is [fmt.Sprint(result.Content)] *)
  CallTool : Client → string → Args → Z → result string
}.

Module mcpcli.
Import model.

Definition second : Z := 1000000000.

Record Opt : Type := mkOpt { timeout : Z }.
Definition Opts : Type := Opt → Opt.
Definition WithTimeout (t : Z) : Opts := λ _, mkOpt t.

Section with_servers.
Context {crypto : Crypto} {json : Json} {servers : ToolServers}.

Record mclient : Type := mkMclient { uri : string; cli : Client }.

(** [clis] holds [*mclient] values, a missing key reads as nil; [idx]
    is a map that may itself be nil; [tools] is the content of the
    [UniqueSlice] of tool pointers. *)
Record McpClient : Type := mkMcpClient {
  clis : gmap string mclient;
  idx : option (gmap string string);
  tools : list Tool
}.

(** [idx] is not among the fields the literal sets. *)
Definition New : McpClient := mkMcpClient ∅ None [].

(** [m.idx[name]]: reading a nil map or a missing key gives the zero
    value. *)
Definition idx_get (m : McpClient) (name : string) : string :=
  default "" (idx m ≫= λ ix, ix !! name).

Definition Call (m : McpClient) (tc : ToolCall) (opts : list Opts)
    : res (result ChatCompletionMessage) :=
  let co := foldl (λ co o, o co) (mkOpt (60 * second)) opts in
  match UnmarshalArgs (Arguments (Function tc)) with
  | Error err => Ret (Error err)
  | OK arg =>
      match clis m !! idx_get m (Name (Function tc)) with
      | None => Panic
      | Some mc =>
          match CallTool (cli mc) (Name (Function tc)) arg (timeout co) with
          | Error err => Ret (Error err)
          | OK content =>
              Ret (OK {| Role := ChatMessageRoleTool;
                         Content := Some {| StringValue := Some content |};
                         ToolCallID := ID tc |})
          end
      end
  end.

Definition Tools (m : McpClient) : list Tool := tools m.
Definition ToolCount (m : McpClient) : Z := Z.of_nat (length (tools m)).

(** Body of [for _, mcptool := range listToolsResult.Tools]: the write
    [m.idx[mcptool.Name] = clikey] panics on a nil map; [vt] is a new
    pointer, so the [UniqueSlice] takes it. *)
Definition register (clikey : string) (mcptool : string * string * string)
    (m : McpClient) : res McpClient :=
  let '(name, description, properties) := mcptool in
  let vt := {| TType := ToolTypeFunction;
               TFunction := {| FName := name;
                               Description := description;
                               Parameters := [("type", "object");
                                              ("properties", properties)] |} |} in
  match idx m with
  | None => Panic
  | Some ix => Ret (mkMcpClient (clis m) (Some (<[name := clikey]> ix)) (tools m ++ [vt]))
  end.

(** [cli, ok := m.clis[clikey]]: on a miss [cli] is nil and the branch
    [!ok] starts by reading [cli.uri], so nothing after that read is
    reached in it. *)
Definition loadTools (m : McpClient) (mcpUri : string)
    : res (result (list Tool) * McpClient) :=
  let clikey := GetSHA1 mcpUri in
  match clis m !! clikey with
  | None => Panic
  | Some c =>
      match ListTools (cli c) with
      | Error err => Ret (Error err, m)
      | OK listed =>
          m' ← for_range (register clikey) listed m;
          Ret (OK (tools m'), m')
      end
  end.

Definition AddTools (m : McpClient) (mcpUri : string)
    : res (option error * McpClient) :=
  if decide (mcpUri = "") then Ret (None, m)
  else
    '(r, m') ← loadTools m mcpUri;
    Ret (match r with
         | OK _ => None
         | Error err => Some err
         end, m').
End with_servers.
End mcpcli.

(** ** Package llm: the session registry *)

(** How a call of the registry ends: it returns; it panics, or a panic
    in one of its goroutines takes the process down; or it waits for
    ever. *)
Inductive run (X : Type) : Type :=
  | Returned (x : X)
  | Crashed
  | Blocked.
Arguments Returned {X} x.
Arguments Crashed {X}.
Arguments Blocked {X}.

(** [%v] of an error. *)
Definition error_text (e : error) : string :=
  match e with
  | io_EOF => "EOF"
  | Err msg => msg
  end.

(** [sync.WaitGroup]: its counter.  [Add(n)] adds [n]; [Go(f)] adds one,
    runs [f] in a new goroutine and takes one off when [f] returns;
    [Wait] returns once the counter is zero. *)
Module sync.
Definition WaitGroup : Type := Z.
Definition Add (n : Z) (wg : WaitGroup) : WaitGroup := wg + n.
Definition Done (wg : WaitGroup) : WaitGroup := wg - 1.
Definition Go {S : Type} (task : S → res S) (st : WaitGroup * S) : res (WaitGroup * S) :=
  let wg := Add 1 st.1 in
  s' ← task st.2;
  Ret (Done wg, s').
Definition Wait {X : Type} (wg : WaitGroup) (k : run X) : run X :=
  if decide (wg = 0) then k else Blocked.
End sync.

Module llm.
Import model.

Definition hour : Z := 3600 * mcpcli.second.

Record Opt : Type := mkOpt {
  dataStorage : storage.Storage;
  chatLifeTime : Z;
  roleSystem : list ChatCompletionMessage;
  baseURI : string;
  modelName : string;
  apiKey : string;
  maxHistory : Z
}.
Definition Opts : Type := Opt → Opt.

Definition WithRoleSystem (msg : list ChatCompletionMessage) : Opts :=
  λ o, mkOpt (dataStorage o) (chatLifeTime o) msg (baseURI o) (modelName o) (apiKey o) (maxHistory o).
Definition WithMaxHistory (n : Z) : Opts :=
  λ o, mkOpt (dataStorage o) (chatLifeTime o) (roleSystem o) (baseURI o) (modelName o) (apiKey o) n.
Definition WithStorage (s : storage.Storage) : Opts :=
  λ o, mkOpt s (chatLifeTime o) (roleSystem o) (baseURI o) (modelName o) (apiKey o) (maxHistory o).
Definition WithChatLifeTime (t : Z) : Opts :=
  λ o, mkOpt (dataStorage o) t (roleSystem o) (baseURI o) (modelName o) (apiKey o) (maxHistory o).
Definition WithBaseURI (u : string) : Opts :=
  λ o, mkOpt (dataStorage o) (chatLifeTime o) (roleSystem o) u (modelName o) (apiKey o) (maxHistory o).
Definition WithModelName (n : string) : Opts :=
  λ o, mkOpt (dataStorage o) (chatLifeTime o) (roleSystem o) (baseURI o) n (apiKey o) (maxHistory o).
Definition WithAPIKey (k : string) : Opts :=
  λ o, mkOpt (dataStorage o) (chatLifeTime o) (roleSystem o) (baseURI o) (modelName o) k (maxHistory o).

(** [s.Load(key)] through the interface. *)
Definition Storage_Load (s : storage.Storage) (key : string)
    : result (list ChatCompletionMessage) :=
  @storage.Load _ (storage.impl_ops s) key (storage.self s).

Section with_world.
Context {crypto : Crypto} {json : Json} {servers : ToolServers} {backend : Backend}.

(** [chats] holds session pointers by key; [logged] is what the logger
    has been handed. *)
Record ChatsManager : Type := mkChatsManager {
  chats : gmap string chat.Chat;
  mcpCli : mcpcli.McpClient;
  cnf : Opt;
  logged : list string
}.

Definition NewChatsManager (opts : list Opts) : ChatsManager :=
  let opt := foldl (λ opt o, o opt)
               (mkOpt (storage.mkStorage _ storage.memory_storage storage.NewMemoryStorage)
                  (7 * 24 * hour) [] "http://127.0.0.1:11434" "qwen3:8b"
                  "your_api_key" 500) opts in
  mkChatsManager ∅ mcpcli.New opt [].

Definition History (cm : ChatsManager) (id : string) : list ChatCompletionMessage :=
  match chats cm !! id with
  | Some ch => chat.History ch
  | None => []
  end.

(** The first part of [ChatsManager.Chat]: the session for [id], the
    key under which the registry holds its pointer, and the registry
    afterwards. *)
Definition session (cm : ChatsManager) (id : string)
    : res (string * chat.Chat * ChatsManager) :=
  let keyid := GetSHA1 id in
  match chats cm !! keyid with
  | Some ch => Ret (keyid, ch, cm)
  | None =>
      let ch := chat.New keyid (modelName (cnf cm))
                  [chat.WithAPIKey (apiKey (cnf cm));
                   chat.WithMaxHistory (maxHistory (cnf cm))] in
      let '(his, logs) :=
        match Storage_Load (dataStorage (cnf cm)) keyid with
        | Error err =>
            ([], logged cm ++ ["load chat history error: " +:+ error_text err])
        | OK his => (his, logged cm)
        end in
      ch' ← (if nonempty his then chat.SetHistory his ch else Ret ch);
      Ret (id, ch', mkChatsManager (<[id := ch']> (chats cm)) (mcpCli cm) (cnf cm) logs)
  end.

(** The function handed to [wg.Go] for tool call [v]: what it adds to
    [msgs] (through the channel) and to the log. *)
Definition tool_task (m : mcpcli.McpClient) (v : ToolCall)
    (st : list ChatCompletionMessage * list string)
    : res (list ChatCompletionMessage * list string) :=
  r ← mcpcli.Call m v [mcpcli.WithTimeout (60 * mcpcli.second)];
  match r with
  | Error err =>
      Ret (st.1, st.2 ++ ["mcp call " +:+ Name (Function v) +:+ " error: "
                          +:+ error_text err])
  | OK msg => Ret (st.1 ++ [msg], st.2)
  end.

(** The tool round of [ChatsManager.Chat], from [wg.Add(l)] to
    [close(chanMsgs)], with the tasks finishing in the order [calls].
    A panic in a task is not recovered. *)
Definition dispatch (m : mcpcli.McpClient) (calls : list ToolCall)
    (logs : list string) : run (list ChatCompletionMessage * list string) :=
  let wg := sync.Add (Z.of_nat (length calls)) 0 in
  match for_range (λ v, sync.Go (tool_task m v)) calls (wg, ([], logs)) with
  | Panic => Crashed
  | Ret (wg, out) => sync.Wait wg (Returned out)
  end.

Definition put_session (slot : string) (ch : chat.Chat) (logs : list string)
    (cm : ChatsManager) : ChatsManager :=
  mkChatsManager (<[slot := ch]> (chats cm)) (mcpCli cm) (cnf cm) logs.

Definition chat_error (ch : chat.Chat) (err : error) : string :=
  "chat [" +:+ chat.ID ch +:+ "] error: " +:+ error_text err.

(** [ChatsManager.Chat]; [now1] and [now2] are the clock readings at
    the end of the first and of the second session turn. *)
Definition ChatsManager_Chat (now1 now2 : Z) (cm : ChatsManager)
    (id message : string) (w : WriteFunc) (sink : list string)
    : run (ChatsManager * list string) :=
  match session cm id with
  | Panic => Crashed
  | Ret (slot, ch, cm) =>
      match chat.Chat_Chat now1 ch message
              [chat.WithTools (mcpcli.Tools (mcpCli cm));
               chat.WithWriteFunc w;
               chat.WithStream (bool_decide (mcpcli.ToolCount (mcpCli cm) = 0))]
              sink with
      | Panic => Crashed
      | Ret (Error err, ch, sink) =>
          Returned (put_session slot ch (logged cm ++ [chat_error ch err]) cm, sink)
      | Ret (OK toolcall, ch, sink) =>
          let cm := put_session slot ch (logged cm) cm in
          let calls := (map_to_list toolcall).*2 in
          if nonempty calls then
            match dispatch (mcpCli cm) calls (logged cm) with
            | Crashed => Crashed
            | Blocked => Blocked
            | Returned (msgs, logs) =>
                if nonempty msgs then
                  match chat.Chat_Chat now2 ch ""
                          [chat.WithToolCalled msgs;
                           chat.WithStream true;
                           chat.WithWriteFunc w;
                           chat.WithRoleSystem (roleSystem (cnf cm))]
                          sink with
                  | Panic => Crashed
                  | Ret (Error err, ch, sink) =>
                      Returned (put_session slot ch (logs ++ [chat_error ch err]) cm, sink)
                  | Ret (OK _, ch, sink) =>
                      Returned (put_session slot ch logs cm, sink)
                  end
                else Returned (put_session slot ch logs cm, sink)
            end
          else Returned (cm, sink)
      end
  end.

(** [InitMcp]: a failed registration is logged and the loop goes on. *)
Definition InitMcp (cm : ChatsManager) (mcpuri : list string) : res ChatsManager :=
  for_range
    (λ u cm,
       '(err, m) ← mcpcli.AddTools (mcpCli cm) u;
       Ret (mkChatsManager (chats cm) m (cnf cm)
              (match err with
               | Some e => logged cm ++ ["init mcp client [" +:+ u +:+ "] error: "
                                         +:+ error_text e]
               | None => logged cm
               end)))
    mcpuri cm.

(** [s.Store(key, h)] through the interface: the error and the storage
    afterwards. *)
Definition Storage_Store (s : storage.Storage) (key : string)
    (h : list ChatCompletionMessage) : option error * storage.Storage :=
  let r := @storage.Store _ (storage.impl_ops s) key h (storage.self s) in
  (r.1, storage.mkStorage (storage.impl s) (storage.impl_ops s) r.2).

Definition with_storage (s : storage.Storage) (o : Opt) : Opt :=
  mkOpt s (chatLifeTime o) (roleSystem o) (baseURI o) (modelName o) (apiKey o)
    (maxHistory o).

(** [time.Since(t)] read at clock value [now]: a [Duration], which stops
    at the ends of the 64-bit range. *)
Definition Since (now t : Z) : Z :=
  Z.max (- 2 ^ 63) (Z.min (2 ^ 63 - 1) (now - t)).

Definition expired (now : string → Z) (cm : ChatsManager) (key : string)
    (value : chat.Chat) : bool :=
  bool_decide (Since (now key) (chat.LastMessage value) > chatLifeTime (cnf cm)).

(** The callback of the background loop for one session; [now key] is
    the clock reading when it is called for [key]. *)
Definition sweep_one (now : string → Z) (cm : ChatsManager)
    (kv : string * chat.Chat) : ChatsManager :=
  if expired now cm kv.1 kv.2 then
    mkChatsManager (delete kv.1 (chats cm)) (mcpCli cm) (cnf cm)
      (logged cm ++ ["chat [" +:+ kv.1 +:+ "] expired and removed"])
  else
    mkChatsManager (chats cm) (mcpCli cm)
      (with_storage
         (Storage_Store (dataStorage (cnf cm)) kv.1 (chat.History kv.2)).2 (cnf cm))
      (logged cm).

(** One tick of the background loop: [cm.chats.ForEach] calls the
    callback for every session the registry holds when the walk
    starts. *)
Definition sweep (now : string → Z) (cm : ChatsManager) : ChatsManager :=
  foldl (sweep_one now) cm (map_to_list (chats cm)).
End with_world.
End llm.

(** ** Collaborators to run the model on *)

(** SHA-1 (FIPS 180-4) over the bytes of a string, printed as lower-case
    hexadecimal text. *)
Module sha1.
Definition mask32 (x : Z) : Z := Z.land x 0xFFFFFFFF.
Definition rotl (n x : Z) : Z :=
  mask32 (Z.lor (Z.shiftl x n) (Z.shiftr x (32 - n))).

Definition bytes_of (s : string) : list Z :=
  (λ a, Z.of_N (Ascii.N_of_ascii a)) <$> String.list_ascii_of_string s.

(** big-endian bytes of [x], [n] of them *)
Fixpoint be_bytes (n : nat) (x : Z) : list Z :=
  match n with
  | O => []
  | S n => be_bytes n (Z.shiftr x 8) ++ [Z.land x 0xFF]
  end.

Definition pad (msg : list Z) : list Z :=
  let len := length msg in
  let zeros := ((64 + 55 - len `mod` 64) `mod` 64)%nat in
  msg ++ [0x80] ++ replicate zeros 0 ++ be_bytes 8 (8 * Z.of_nat len).

Fixpoint words (bs : list Z) : list Z :=
  match bs with
  | b0 :: b1 :: b2 :: b3 :: bs =>
      Z.lor (Z.shiftl b0 24) (Z.lor (Z.shiftl b1 16) (Z.lor (Z.shiftl b2 8) b3))
      :: words bs
  | _ => []
  end.

(** the message schedule, latest word first *)
Fixpoint schedule (n : nat) (w : list Z) : list Z :=
  match n with
  | O => w
  | S n =>
      schedule n
        (rotl 1 (Z.lxor (Z.lxor (nth 2 w 0) (nth 7 w 0))
                        (Z.lxor (nth 13 w 0) (nth 15 w 0))) :: w)
  end.

Definition state : Type := Z * Z * Z * Z * Z.

Definition round (st : state) (iw : Z * Z) : state :=
  let '(a, b, c, d, e) := st in
  let '(i, w) := iw in
  let '(f, k) :=
    if decide (i < 20) then
      (Z.lor (Z.land b c) (Z.land (Z.lxor b 0xFFFFFFFF) d), 0x5A827999)
    else if decide (i < 40) then
      (Z.lxor b (Z.lxor c d), 0x6ED9EBA1)
    else if decide (i < 60) then
      (Z.lor (Z.land b c) (Z.lor (Z.land b d) (Z.land c d)), 0x8F1BBCDC)
    else (Z.lxor b (Z.lxor c d), 0xCA62C1D6) in
  (mask32 (rotl 5 a + f + e + k + w), a, rotl 30 b, c, d).

Definition block (h : state) (w16 : list Z) : state :=
  let w := reverse (schedule 64 (reverse w16)) in
  let '(a, b, c, d, e) := foldl round h (zip (Z.of_nat <$> seq 0 80) w) in
  let '(h0, h1, h2, h3, h4) := h in
  (mask32 (h0 + a), mask32 (h1 + b), mask32 (h2 + c), mask32 (h3 + d), mask32 (h4 + e)).

Fixpoint blocks (n : nat) (h : state) (ws : list Z) : state :=
  match n with
  | O => h
  | S n => blocks n (block h (take 16 ws)) (drop 16 ws)
  end.

Definition digest (s : string) : state :=
  let ws := words (pad (bytes_of s)) in
  blocks (length ws / 16)%nat
    (0x67452301, 0xEFCDAB89, 0x98BADCFE, 0x10325476, 0xC3D2E1F0) ws.

Definition hex_digit (x : Z) : Ascii.ascii :=
  Ascii.ascii_of_N (Z.to_N (if decide (x < 10) then 48 + x else 87 + x)).

Fixpoint hex_word (n : nat) (x : Z) (acc : string) : string :=
  match n with
  | O => acc
  | S n => hex_word n (Z.shiftr x 4) (String (hex_digit (Z.land x 15)) acc)
  end.

Definition hex (s : string) : string :=
  let '(h0, h1, h2, h3, h4) := digest s in
  hex_word 8 h0 (hex_word 8 h1 (hex_word 8 h2 (hex_word 8 h3 (hex_word 8 h4 "")))).
End sha1.

Module demo.
Import model.

#[export] Instance crypto : Crypto := {| GetSHA1 := sha1.hex |}.

Definition starts_with (c : Ascii.ascii) (s : string) : bool :=
  match s with
  | String c' _ => bool_decide (c = c')
  | EmptyString => false
  end.

Definition encode (m : ChatCompletionMessage) : string :=
  "{" +:+ Role m +:+ ":"
  +:+ default "" (Content m ≫= StringValue) +:+ ":" +:+ ToolCallID m +:+ "}".

(** A stand-in for the JSON codec.  It takes any text that opens an object
    as tool arguments, writes a message list as an array text, and reads
    no text as a single message: an array is not one, and nothing else is
    ever written. *)
#[export] Instance json : Json := {|
  Args := string;
  UnmarshalArgs s :=
    if starts_with "{"%char s then OK s else Error (Err "invalid character");
  MarshalMessages l := OK ("[" +:+ String.concat "," (encode <$> l) +:+ "]");
  UnmarshalMessage s :=
    if starts_with "["%char s then Error (Err "cannot unmarshal array into Go value")
    else Error (Err "unexpected end of JSON input")
|}.

(** One MCP server per URI, each with a single tool [echo] that answers
    with its arguments; any other name fails there. *)
#[export] Instance servers : ToolServers := {|
  Client := string;
  NewSSEMCPClient uri := OK uri;
  Initialize _ := None;
  ListTools _ := OK [("echo", "answers with its arguments", "{}")];
  CallTool _ name arg _ :=
    if decide (name = "echo") then OK arg else Error (Err "tool failed")
|}.

(** A backend that answers every streaming request with [stream] and has
    no complete responses. *)
Definition scripted (stream : result (list recv_result)) : Backend := {|
  CreateChatCompletionStream _ := stream;
  CreateChatCompletion _ := Error (Err "not scripted")
|}.

(** The double quote character, and a tool-call delta. *)
Definition dq : string := String (Ascii.ascii_of_nat 34) EmptyString.

Definition delta (id name args : string) : ToolCall :=
  {| ID := id; Function := {| Name := name; Arguments := args |}; Type_ := "" |}.

Definition chunk (role content : string) (tcs : list ToolCall) : recv_result :=
  Recv {| SChoices := [ {| DContent := content; DRole := role; DToolCalls := tcs |} ] |}.

(** A backend that answers every non-streaming request with [resp] and
    has no streams. *)
Definition complete (resp : result ChatCompletionResponse) : Backend := {|
  CreateChatCompletionStream _ := Error (Err "not scripted");
  CreateChatCompletion _ := resp
|}.

(** A backend that streams the answer [Hello] in two pieces. *)
Definition hello : Backend :=
  scripted (OK [chunk "assistant" "Hel" []; chunk "assistant" "lo" []]).

(** Two calls of the registry for the same [id], one after the other,
    and what [History id] returns after each. *)
Definition two_calls {crypto : Crypto} {json : Json} {servers : ToolServers}
    {backend : Backend} (cm : llm.ChatsManager) (id first second : string) (w : WriteFunc)
    : option (list ChatCompletionMessage * list ChatCompletionMessage) :=
  match llm.ChatsManager_Chat 1 2 cm id first w [] with
  | Returned (cm1, sink1) =>
      match llm.ChatsManager_Chat 3 4 cm1 id second w sink1 with
      | Returned (cm2, _) => Some (llm.History cm1 id, llm.History cm2 id)
      | _ => None
      end
  | _ => None
  end.

(** Reading back what [encode] wrote, for texts without [:], [}] and
    [,]: the text up to the first [c], and what follows it. *)
Fixpoint until (c : Ascii.ascii) (s : string) : option (string * string) :=
  match s with
  | EmptyString => None
  | String a r =>
      if decide (a = c) then Some ("", r)
      else '(x, rest) ← until c r; Some (String a x, rest)
  end.

Fixpoint decode_all (fuel : nat) (s : string) : option (list ChatCompletionMessage) :=
  match fuel with
  | O => None
  | S fuel =>
      match s with
      | String "{" r =>
          '(role, r1) ← until ":" r;
          '(content, r2) ← until ":" r1;
          '(tcid, r3) ← until "}" r2;
          let m := {| Role := role;
                      Content := Some {| StringValue := Some content |};
                      ToolCallID := tcid |} in
          match r3 with
          | String "," r4 => (m ::.) <$> decode_all fuel r4
          | String "]" EmptyString => Some [m]
          | _ => None
          end
      | _ => None
      end
  end.

#[export] Instance json_list : JsonList := {|
  UnmarshalMessages s :=
    match s with
    | String "[" (String "]" EmptyString) => OK []
    | String "[" r =>
        match decode_all (String.length r) r with
        | Some l => OK l
        | None => Error (Err "invalid character")
        end
    | _ => Error (Err "invalid character")
    end
|}.
End demo.

(** * Properties *)

(** ** Lists *)

Section list_facts.
Context {B S : Type}.

Lemma foldl_seq_lookup (g : B → S → S) (d : B) (pre l : list B) (s : S) :
  foldl (λ s k, g (default d ((pre ++ l) !! k)) s) s (seq (length pre) (length l))
  = foldl (λ s b, g b s) s l.
Proof.
  revert pre s. induction l as [|x l IH]; intros pre s; [done|].
  cbn [length seq foldl].
  rewrite list_lookup_middle by done. cbn [default].
  specialize (IH (pre ++ [x]) (g x s)).
  rewrite <- app_assoc, length_app in IH. cbn in IH.
  by rewrite Nat.add_1_r in IH.
Qed.

Lemma foldl_ext_in {X : Type} (f g : S → X → S) (l : list X) (s : S) :
  (∀ s x, x ∈ l → f s x = g s x) → foldl f s l = foldl g s l.
Proof.
  revert s. induction l as [|x l IH]; intros s Hfg; [done|].
  cbn. rewrite Hfg by left. apply IH. intros. apply Hfg. by right.
Qed.
End list_facts.

Lemma foldl_idem {S X : Type} (g : S → S) (l : list X) (s : S) :
  (∀ s, g (g s) = g s) → l ≠ [] → foldl (λ s _, g s) s l = g s.
Proof.
  intros Hg Hl. destruct l as [|x l]; [done|]. cbn. clear Hl.
  revert s. induction l as [|y l IH]; intros s; [done|].
  cbn. by rewrite Hg.
Qed.

Lemma foldl_collect {B : Type} (l : list (option B)) (acc : list B) :
  foldl (λ x a, match a with
                | None => x
                | Some m => x ++ [m]
                end) acc l = acc ++ omap id l.
Proof.
  revert acc. induction l as [|[b|] l IH]; intros acc; cbn.
  - by rewrite app_nil_r.
  - by rewrite IH, <- app_assoc.
  - apply IH.
Qed.

Lemma omap_id_replicate_None {B : Type} (n : nat) :
  omap id (replicate n (@None B)) = [].
Proof. induction n; [done|]. by cbn. Qed.

Lemma omap_id_Some {B : Type} (l : list B) : omap id (Some <$> l) = l.
Proof. induction l; [done|]. cbn. by f_equal. Qed.

(** What is left of [l], put behind [n] empty slots, after the first [k]
    slots are dropped. *)
Lemma omap_drop_slots {B : Type} (k n : nat) (l : list B) :
  omap id (drop k (replicate n None ++ (Some <$> l))) = drop (k - n) l.
Proof.
  rewrite drop_app, omap_app, length_replicate, drop_replicate.
  rewrite omap_id_replicate_None. cbn. by rewrite <- fmap_drop, omap_id_Some.
Qed.

(** ** The ring *)

Module ring_facts.
Section ring_facts.
Context {A : Type}.
Implicit Types r : ring.Ring A.

Lemma length_view r : length (ring.view r) = length (ring.elems r).
Proof. apply length_rotate. Qed.

Lemma value_at_view r k :
  (k < length (ring.elems r))%nat →
  ring.value_at (Some r) (rotate_nat_add (ring.at_ r) k (length (ring.elems r)))
  = default None (ring.view r !! k).
Proof. intros Hk. unfold ring.view. cbn. by rewrite lookup_rotate_r. Qed.

Lemma view_New (n : Z) r : ring.New n = Some r → ring.view r = replicate (Z.to_nat n) None ∧ ring.wf r.
Proof.
  unfold ring.New. case_decide; [done|]. intros [= <-]. split.
  - apply rotate_replicate.
  - unfold ring.wf. cbn. rewrite length_replicate. lia.
Qed.

Lemma wf_set_Value v r : ring.wf r → ring.wf (ring.set_Value v r).
Proof. unfold ring.wf. cbn. by rewrite length_insert. Qed.

Lemma wf_Next r : ring.wf r → ring.wf (ring.Next r).
Proof.
  unfold ring.wf. cbn. intros Hr. apply rotate_nat_add_lt. lia.
Qed.

Lemma view_set_Value v r :
  ring.wf r → ring.view (ring.set_Value v r) = v :: tail (ring.view r).
Proof.
  unfold ring.wf, ring.view, rotate. cbn. intros Hr.
  rewrite length_insert, Nat.mod_small by done.
  rewrite drop_insert_ge by lia. rewrite Nat.sub_diag.
  rewrite take_insert_ge by lia.
  destruct (drop (ring.at_ r) (ring.elems r)) as [|x xs] eqn:Hd.
  - apply (f_equal length) in Hd. rewrite length_drop in Hd. cbn in Hd. lia.
  - done.
Qed.

Lemma view_Next r :
  ring.wf r → ring.view (ring.Next r) = tail (ring.view r) ++ take 1 (ring.view r).
Proof.
  unfold ring.wf, ring.view, rotate. cbn. unfold rotate_nat_add. intros Hr.
  set (n := length (ring.elems r)) in *. set (p := ring.at_ r) in *.
  rewrite (Nat.mod_small p n) by done.
  destruct (decide (S p = n)) as [Hn|Hn].
  - replace ((Z.of_nat p + Z.of_nat 1) `mod` Z.of_nat n) with 0.
    2:{ replace (Z.of_nat p + Z.of_nat 1) with (Z.of_nat n) by lia.
        by rewrite Z_mod_same_full. }
    cbn. rewrite Nat.Div0.mod_0_l by lia. cbn.
    rewrite <- (take_drop p (ring.elems r)) at 1.
    destruct (drop p (ring.elems r)) as [|x [|y xs]] eqn:Hd.
    + apply (f_equal length) in Hd. rewrite length_drop in Hd. cbn in Hd. lia.
    + by rewrite app_nil_r.
    + apply (f_equal length) in Hd. rewrite length_drop in Hd. cbn in Hd. lia.
  - rewrite Z.mod_small by lia.
    replace (Z.to_nat (Z.of_nat p + Z.of_nat 1)) with (S p) by lia.
    rewrite Nat.mod_small by lia.
    rewrite (take_S_r _ _ (default None (ring.elems r !! p))).
    2:{ destruct (lookup_lt_is_Some_2 (ring.elems r) p Hr) as [x ->]. done. }
    rewrite (drop_S _ (default None (ring.elems r !! p)) p).
    2:{ destruct (lookup_lt_is_Some_2 (ring.elems r) p Hr) as [x ->]. done. }
    cbn. by rewrite <- app_assoc.
Qed.

(** Writing the element pointed to and moving on: the oldest Value
    leaves the view and the new one enters at its end. *)
Lemma view_put v r :
  ring.wf r → ring.view (ring.Next (ring.set_Value v r)) = tail (ring.view r) ++ [v].
Proof.
  intros Hr. rewrite view_Next by by apply wf_set_Value.
  by rewrite view_set_Value.
Qed.

(** [Do] with a closure that leaves the ring alone visits the view. *)
Lemma Do_view {S : Type} r (f : option A → S → S) (s : S) :
  ring.Do (λ _, Some r) f s = foldl (λ s a, f a s) s (ring.view r).
Proof.
  unfold ring.Do.
  rewrite <- (foldl_seq_lookup (S:=S) f None [] (ring.view r) s).
  cbn [length app]. rewrite length_view.
  apply foldl_ext_in. intros s' k Hk.
  apply elem_of_seq in Hk. by rewrite value_at_view by lia.
Qed.
End ring_facts.
End ring_facts.

(** ** The History Buffer *)

Module history_facts.
Section history_facts.
Context {A : Type}.
Implicit Types (u : history.History A) (r : ring.Ring A).
Implicit Types (cs : list (history.call A)) (msgs : list A).

Lemma Slice_view u r :
  history.data u = Some r → history.Slice u = omap id (ring.view r).
Proof.
  intros Hr. unfold history.Slice. rewrite Hr.
  by rewrite ring_facts.Do_view, foldl_collect.
Qed.

Lemma Slice_nil u : history.data u = None → history.Slice u = [].
Proof. intros Hr. unfold history.Slice, ring.Do. by rewrite Hr. Qed.

Lemma ok_New (C : Z) : history.ok (A:=A) (history.New C).
Proof.
  unfold history.ok, history.New. cbn.
  destruct (ring.New C) as [r|] eqn:Hr; [|done].
  by destruct (ring_facts.view_New _ _ Hr).
Qed.

Lemma Len_New (C : Z) : 0 ≤ C → history.Len (A:=A) (history.New C) = C.
Proof.
  intros HC. unfold history.Len, history.New, ring.New. cbn.
  case_decide; cbn; [lia|]. rewrite length_replicate. lia.
Qed.

Lemma put_view msg u r :
  history.data u = Some r → ring.wf r →
  ∃ r', history.put msg u = Ret (history.mk (Some r') (history.maxContext u))
        ∧ ring.wf r'
        ∧ length (ring.elems r') = length (ring.elems r)
        ∧ ring.view r' = tail (ring.view r) ++ [Some msg].
Proof.
  intros Hr Hwf. unfold history.put. rewrite Hr. eexists. split; [done|].
  split; [by apply ring_facts.wf_Next, ring_facts.wf_set_Value|].
  split; [cbn; by rewrite length_insert|].
  by apply ring_facts.view_put.
Qed.

Lemma Store_StoreMany msg u :
  snd <$> history.Store msg u = history.StoreMany [msg] u.
Proof. unfold history.Store. cbn. by destruct (history.put msg u). Qed.

Lemma StoreMany_app msgs1 msgs2 u :
  history.StoreMany (msgs1 ++ msgs2) u
  = history.StoreMany msgs1 u ≫= history.StoreMany msgs2.
Proof.
  revert u. induction msgs1 as [|m msgs1 IH]; intros u; [done|].
  cbn. destruct (history.put m u) as [u'|]; [|done]. apply IH.
Qed.

(** Appending [msgs]: they enter the view at its end, in order, and as
    many of the oldest Values leave it. *)
Lemma StoreMany_view msgs u r :
  history.data u = Some r → ring.wf r →
  ∃ r', history.StoreMany msgs u = Ret (history.mk (Some r') (history.maxContext u))
        ∧ ring.wf r'
        ∧ length (ring.elems r') = length (ring.elems r)
        ∧ ring.view r' = drop (length msgs) (ring.view r ++ (Some <$> msgs)).
Proof.
  revert u r. induction msgs as [|m msgs IH]; intros u r Hr Hwf.
  - exists r. cbn. rewrite app_nil_r. by destruct u; simplify_eq/=.
  - destruct (put_view m u r Hr Hwf) as (r1 & Hput & Hwf1 & Hlen1 & Hview1).
    cbn [history.StoreMany]. rewrite Hput. cbn.
    destruct (IH (history.mk (Some r1) (history.maxContext u)) r1 eq_refl Hwf1)
      as (r' & Hst & Hwf' & Hlen' & Hview').
    exists r'. split; [done|]. split; [done|]. split; [congruence|].
    rewrite Hview', Hview1.
    destruct (ring.view r) as [|x xs] eqn:Hv.
    + apply (f_equal length) in Hv. rewrite ring_facts.length_view in Hv.
      unfold ring.wf in Hwf. cbn in Hv. lia.
    + cbn. by rewrite <- app_assoc.
Qed.

(** [Clear] writes nil to the element pointed to, and to no other. *)
Lemma Clear_current_only u r :
  history.data u = Some r → ring.wf r →
  history.Clear u
  = history.mk (Some (ring.set_Value None r)) (history.maxContext u).
Proof.
  intros Hr Hwf. unfold history.Clear, ring.Do. rewrite Hr. cbv beta.
  rewrite foldl_idem.
  - by rewrite Hr.
  - intros [[r'|] mc]; [|done]. cbn. unfold ring.set_Value. cbn.
    by rewrite list_insert_insert_eq.
  - unfold ring.wf in Hwf. destruct (ring.elems r); cbn in *; [lia|done].
Qed.

Lemma Clear_nil u : history.data u = None → history.Clear u = u.
Proof. intros Hr. unfold history.Clear, ring.Do. by rewrite Hr. Qed.

(** After [Clear] the snapshot still holds every message but the one in
    the element pointed to. *)
Lemma Slice_Clear u r :
  history.data u = Some r → ring.wf r →
  history.Slice (history.Clear u) = omap id (tail (ring.view r)).
Proof.
  intros Hr Hwf. rewrite (Clear_current_only u r Hr Hwf).
  erewrite Slice_view by done. by rewrite ring_facts.view_set_Value.
Qed.

Lemma Len_Clear u : history.ok u → history.Len (history.Clear u) = history.Len u ∧ history.ok (history.Clear u).
Proof.
  unfold history.ok. destruct (history.data u) as [r|] eqn:Hr; intros Hwf.
  - rewrite (Clear_current_only u r Hr Hwf). unfold history.Len. rewrite Hr. cbn.
    rewrite length_insert. split; [done|]. by apply ring_facts.wf_set_Value.
  - rewrite (Clear_nil u Hr). by rewrite Hr.
Qed.

Lemma exec_Len c u u' :
  history.ok u → history.exec c u = Ret u' → history.Len u' = history.Len u ∧ history.ok u'.
Proof.
  intros Hok. unfold history.ok in Hok. destruct c as [msg|msgs|]; cbn.
  - rewrite Store_StoreMany. destruct (history.data u) as [r|] eqn:Hr.
    + destruct (StoreMany_view [msg] u r Hr Hok) as (r' & -> & Hwf & Hlen & _).
      intros [= <-]. unfold history.Len, history.ok. rewrite Hr. cbn. split; [congruence|done].
    + cbn. unfold history.put. by rewrite Hr.
  - destruct (history.data u) as [r|] eqn:Hr.
    + destruct (StoreMany_view msgs u r Hr Hok) as (r' & -> & Hwf & Hlen & _).
      intros [= <-]. unfold history.Len, history.ok. rewrite Hr. cbn. split; [congruence|done].
    + destruct msgs as [|m msgs]; cbn.
      * intros [= <-]. unfold history.ok. by rewrite Hr.
      * unfold history.put. by rewrite Hr.
  - intros [= <-]. apply Len_Clear. unfold history.ok. by destruct (history.data u).
Qed.

Lemma run_Len cs u u' :
  history.ok u → history.run cs u = Ret u' → history.Len u' = history.Len u ∧ history.ok u'.
Proof.
  revert u. induction cs as [|c cs IH]; intros u Hok; cbn.
  - by intros [= <-].
  - destruct (history.exec c u) as [u1|] eqn:Hc; [|done]. cbn. intros Hrun.
    destruct (exec_Len c u u1 Hok Hc) as [HL Hok1].
    destruct (IH u1 Hok1 Hrun) as [HL' Hok']. split; [congruence|done].
Qed.

Lemma exec_returns c u r :
  history.data u = Some r → ring.wf r →
  ∃ u' r', history.exec c u = Ret u' ∧ history.data u' = Some r' ∧ ring.wf r'.
Proof.
  intros Hr Hwf. destruct c as [msg|msgs|]; cbn.
  - rewrite Store_StoreMany.
    destruct (StoreMany_view [msg] u r Hr Hwf) as (r' & -> & Hwf' & _). eauto.
  - destruct (StoreMany_view msgs u r Hr Hwf) as (r' & -> & Hwf' & _). eauto.
  - rewrite (Clear_current_only u r Hr Hwf). eexists _, _. split; [done|].
    split; [done|]. by apply ring_facts.wf_set_Value.
Qed.

Lemma run_returns cs u r :
  history.data u = Some r → ring.wf r → returns (history.run cs u).
Proof.
  revert u r. induction cs as [|c cs IH]; intros u r Hr Hwf; cbn.
  - by eexists.
  - destruct (exec_returns c u r Hr Hwf) as (u' & r' & -> & Hr' & Hwf'). cbn. eauto.
Qed.

Lemma run_appends cs u :
  forallb history.is_append cs = true →
  history.run cs u = history.StoreMany (cs ≫= history.appended) u.
Proof.
  revert u. induction cs as [|c cs IH]; intros u Hcs; [done|].
  cbn in Hcs. apply andb_prop in Hcs as [Hc Hcs].
  cbn [mbind list_bind]. unfold history.run in *. cbn [for_range].
  rewrite StoreMany_app.
  destruct c as [msg|msgs|]; [| |done]; cbn [history.exec history.appended].
  - rewrite Store_StoreMany.
    destruct (history.StoreMany [msg] u) as [u'|]; [|done]. cbn. by apply IH.
  - destruct (history.StoreMany msgs u) as [u'|]; [|done]. cbn. by apply IH.
Qed.

(** A new buffer filled by one [StoreMany]. *)
Lemma StoreMany_New (C : Z) msgs :
  1 ≤ C →
  ∃ u, history.StoreMany msgs (history.New C) = Ret u
       ∧ history.Slice u = drop (length msgs - Z.to_nat C) msgs.
Proof.
  intros HC. destruct (ring.New (A:=A) C) as [r|] eqn:Hr.
  2:{ unfold ring.New in Hr. case_decide; [lia|done]. }
  destruct (ring_facts.view_New _ _ Hr) as [Hview Hwf].
  destruct (StoreMany_view msgs (history.New C) r Hr Hwf)
    as (r' & Hst & Hwf' & Hlen & Hview').
  eexists. split; [exact Hst|].
  erewrite Slice_view by done. rewrite Hview', Hview. apply omap_drop_slots.
Qed.

(** C8: a buffer created with capacity [C] reports [C] as its length,
    whatever has been stored in it or cleared since; with [C >= 1] every
    such sequence of calls runs to its end. *)
Theorem Len_is_capacity (C : Z) cs :
  0 ≤ C →
  history.Len (A:=A) (history.New C) = C
  ∧ (∀ u, history.run cs (history.New C) = Ret u → history.Len u = C)
  ∧ (1 ≤ C → returns (history.run cs (history.New (A:=A) C))).
Proof.
  intros HC. split; [by apply Len_New|]. split.
  - intros u Hrun. destruct (run_Len cs _ u (ok_New C) Hrun) as [-> _].
    by apply Len_New.
  - intros HC1. destruct (ring.New (A:=A) C) as [r|] eqn:Hr.
    + destruct (ring_facts.view_New _ _ Hr) as [_ Hwf].
      by apply (run_returns cs (history.New C) r).
    + unfold ring.New in Hr. case_decide; [lia|done].
Qed.

(** For a negative argument [New] builds the nil ring, of length 0. *)
Lemma Len_New_negative (C : Z) : C < 0 → history.Len (A:=A) (history.New C) = 0.
Proof.
  intros HC. unfold history.Len, history.New, ring.New. cbn.
  case_decide; [done|lia].
Qed.

(** C7: with capacity [C >= 1], after any sequence of [Store] and
    [StoreMany] calls that appended [L] messages in all, [Slice] returns
    the last [min L C] of them, oldest first. *)
Theorem Slice_last_appended (C : Z) cs :
  1 ≤ C →
  forallb history.is_append cs = true →
  ∃ u, history.run cs (history.New C) = Ret u
       ∧ history.Slice u
         = drop (length (cs ≫= history.appended) - Z.to_nat C)
             (cs ≫= history.appended)
       ∧ Z.of_nat (length (history.Slice u))
         = Z.min (Z.of_nat (length (cs ≫= history.appended))) C.
Proof.
  intros HC Hcs. rewrite (run_appends cs _ Hcs).
  destruct (StoreMany_New C (cs ≫= history.appended) HC) as (u & Hst & HS).
  exists u. split; [done|]. split; [done|]. rewrite HS, length_drop. lia.
Qed.

(** X4: [Clear] leaves the capacity as it is, in every state a buffer
    can reach. *)
Theorem Clear_keeps_capacity (C : Z) cs u :
  history.run cs (history.New C) = Ret u →
  history.Len (history.Clear u) = history.Len u.
Proof.
  intros Hrun. destruct (run_Len cs _ u (ok_New C) Hrun) as [_ Hok].
  by destruct (Len_Clear u Hok).
Qed.

(** C2, on the code as it is: [Clear] writes nil only to the element the
    buffer points to.  After [L] messages were stored in a new buffer of
    capacity [C >= 1], [Slice] after [Clear] returns all of them when
    [L < C], and all but the oldest of the last [C] otherwise. *)
Theorem Clear_keeps_messages (C : Z) msgs :
  1 ≤ C →
  history.Slice
  <$> history.run [history.CallStoreMany msgs; history.CallClear] (history.New C)
  = Ret (drop (length msgs + 1 - Z.to_nat C) msgs).
Proof.
  intros HC. destruct (ring.New (A:=A) C) as [r|] eqn:Hr.
  2:{ unfold ring.New in Hr. case_decide; [lia|done]. }
  destruct (ring_facts.view_New _ _ Hr) as [Hview Hwf].
  destruct (StoreMany_view msgs (history.New C) r Hr Hwf)
    as (r' & Hst & Hwf' & Hlen & Hview').
  unfold history.run. cbn [for_range history.exec]. rewrite Hst.
  change (history.Slice <$> _ = _)
    with (Ret (history.Slice
                 (history.Clear
                    (history.mk (Some r') (history.maxContext (A:=A) (history.New C)))))
          = Ret (drop (length msgs + 1 - Z.to_nat C) msgs)).
  f_equal. erewrite Slice_Clear by done.
  rewrite Hview', Hview. change (tail ?l) with (drop 1 l).
  by rewrite drop_drop, omap_drop_slots.
Qed.

(** Two messages in a buffer of capacity 3 are both still there. *)
Lemma Clear_two_of_three (m1 m2 : A) :
  history.Slice
  <$> history.run [history.CallStore m1; history.CallStore m2; history.CallClear]
        (history.New 3)
  = Ret [m1; m2].
Proof. reflexivity. Qed.

(** A full buffer loses its oldest message, and nothing else. *)
Lemma Clear_full_buffer (m1 m2 m3 : A) :
  history.Slice
  <$> history.run [history.CallStoreMany [m1; m2; m3]; history.CallClear]
        (history.New 3)
  = Ret [m2; m3].
Proof. reflexivity. Qed.
End history_facts.

(** C8 at capacity 2, after three stores and a clear. *)
Lemma Len_is_capacity_witness :
  history.Len (A:=nat) (history.New 2) = 2
  ∧ (∀ u, history.run [history.CallStoreMany [1; 2; 3]%nat; history.CallClear]
            (history.New 2) = Ret u → history.Len u = 2)
  ∧ (1 ≤ 2 → returns (history.run [history.CallStoreMany [1; 2; 3]%nat; history.CallClear]
                        (history.New (A:=nat) 2))).
Proof. apply (Len_is_capacity 2). lia. Defined.

(** C2's failing input: two messages, capacity 3. *)
Lemma Clear_keeps_messages_witness :
  history.Slice
  <$> history.run [history.CallStoreMany [1; 2]%nat; history.CallClear] (history.New 3)
  = Ret [1; 2]%nat.
Proof. apply (Clear_keeps_messages 3 [1; 2]%nat). lia. Defined.

(** X4 on a full buffer of capacity 2. *)
Lemma Clear_keeps_capacity_witness :
  history.Len
    (history.Clear
       (history.mk (Some (ring.mk [Some 3%nat; Some 2%nat] 1)) 4))
  = history.Len (history.mk (Some (ring.mk [Some 3%nat; Some 2%nat] 1)) 4).
Proof.
  apply (Clear_keeps_capacity 2 [history.CallStoreMany [1; 2; 3]%nat]).
  reflexivity.
Defined.

(** C7 at capacity 2 with three messages appended. *)
Lemma Slice_last_appended_witness :
  ∃ u, history.run [history.CallStore 1%nat; history.CallStoreMany [2; 3]%nat]
         (history.New 2) = Ret u
       ∧ history.Slice u = [2; 3]%nat
       ∧ Z.of_nat (length (history.Slice u)) = 2.
Proof.
  apply (Slice_last_appended 2
           [history.CallStore 1%nat; history.CallStoreMany [2; 3]%nat]);
    [lia | reflexivity].
Defined.
End history_facts.

(** ** The streaming assembler *)

Module chat_facts.
Import model.

Section assembler.
Implicit Types (st : chat.assembly) (w : WriteFunc) (tc : ToolCall).

(** A delta with an id not seen before opens a pending entry under that
    id, which becomes the current one. *)
Lemma on_tool_delta_new tc st :
  ID tc ≠ "" → chat.toolCallMap st !! ID tc = None →
  chat.on_tool_delta tc st
  = Ret (chat.mkAssembly
           (<[ID tc := {| ID := ID tc;
                          Function := {| Name := Name (Function tc);
                                         Arguments := Arguments (Function tc) |};
                          Type_ := Type_ tc |}]> (chat.toolCallMap st))
           (ID tc) (chat.message st) (chat.written st)).
Proof.
  intros Hid Hnew. unfold chat.on_tool_delta. rewrite decide_True by done.
  by rewrite Hnew.
Qed.

(** A delta with an empty id adds its argument text to the end of the
    current entry's. *)
Lemma on_tool_delta_continue tc st t :
  ID tc = "" → chat.toolCallMap st !! chat.lastCallID st = Some t →
  chat.on_tool_delta tc st
  = Ret (chat.mkAssembly
           (<[chat.lastCallID st :=
                {| ID := ID t;
                   Function := {| Name := Name (Function t);
                                  Arguments := Arguments (Function t)
                                               +:+ Arguments (Function tc) |};
                   Type_ := Type_ t |}]> (chat.toolCallMap st))
           (chat.lastCallID st) (chat.message st) (chat.written st)).
Proof.
  intros Hid Hcur. unfold chat.on_tool_delta.
  rewrite decide_False by (intros ?; done). by rewrite Hcur.
Qed.

(** With no current entry, a delta with an empty id dereferences nil. *)
Lemma on_tool_delta_orphan tc st :
  ID tc = "" → chat.toolCallMap st !! chat.lastCallID st = None →
  chat.on_tool_delta tc st = Panic.
Proof.
  intros Hid Hcur. unfold chat.on_tool_delta.
  rewrite decide_False by (intros ?; done). by rewrite Hcur.
Qed.

Lemma on_content_calls w d st :
  chat.toolCallMap (chat.on_content w d st).2 = chat.toolCallMap st
  ∧ chat.lastCallID (chat.on_content w d st).2 = chat.lastCallID st.
Proof.
  unfold chat.on_content. case_decide; [|done].
  by destruct (w (chat.written st) (DContent d)).
Qed.

Lemma on_content_accepted w d st :
  (∀ l s, w l s = None) → (chat.on_content w d st).1 = None.
Proof.
  intros Hw. unfold chat.on_content. case_decide; [|done]. by rewrite Hw.
Qed.

Lemma recv_loop_app w pre rest st st' :
  forallb chat.is_recv pre = true →
  chat.recv_loop w pre st = Ret (None, st') →
  chat.recv_loop w (pre ++ rest) st = chat.recv_loop w rest st'.
Proof.
  revert st. induction pre as [|[r|e] pre IH]; intros st Hpre Hrun; cbn in *.
  - by simplify_eq.
  - destruct (SChoices r) as [|d ds]; [by apply IH|].
    destruct (chat.on_content w d st) as [[err|] st1]; [done|].
    destruct (for_range chat.on_tool_delta (DToolCalls d) st1) as [st2|]; [|done].
    cbn in *. by apply IH.
  - done.
Qed.

(** An empty-id delta that comes before any delta with an id: the loop
    panics when it reaches it. *)
Lemma recv_loop_orphan w stream st tc :
  (∀ l s, w l s = None) →
  chat.toolCallMap st !! chat.lastCallID st = None →
  chat.first_tool_delta stream = Some tc → ID tc = "" →
  chat.recv_loop w stream st = Panic.
Proof.
  intros Hw. revert st.
  induction stream as [|[r|e] stream IH]; intros st Hcur Hfirst Hid; cbn in *;
    [done| |done].
  destruct (SChoices r) as [|d ds]; [by apply IH|].
  pose proof (on_content_accepted w d st Hw) as Hacc.
  pose proof (on_content_calls w d st) as [Hmap Hlast].
  destruct (chat.on_content w d st) as [err st1]. cbn in *. subst err.
  destruct (DToolCalls d) as [|tc' tcs]; cbn.
  - apply IH; [congruence|done..].
  - simplify_eq. rewrite on_tool_delta_orphan; [done..|congruence].
Qed.
End assembler.

Section with_backend.
Context {backend : Backend}.
Implicit Types (c : chat.Chat) (w : WriteFunc).

(** A failed streaming call returns its error and the session as it
    found it. *)
Lemma doStream_fails c req w sink e sink' :
  chat.stream_fails w sink (CreateChatCompletionStream req) e sink' →
  chat.doStream c req w sink = Ret (Error e, c, sink').
Proof.
  unfold chat.doStream. intros Hf.
  destruct Hf as [e|pre e rest st Hpre Hrun He|pre r d ds rest st e st' Hpre Hrun Hd Hw].
  - done.
  - rewrite (recv_loop_app _ _ _ _ _ Hpre Hrun). cbn.
    by rewrite decide_False.
  - rewrite (recv_loop_app _ _ _ _ _ Hpre Hrun). cbn. by rewrite Hd, Hw.
Qed.


(** Every error [doStream] returns is one of the failures above. *)
Lemma recv_loop_error w stream st e st' :
  chat.recv_loop w stream st = Ret (Some e, st') →
  (∃ pre rest, stream = pre ++ RecvErr e :: rest
     ∧ forallb chat.is_recv pre = true
     ∧ chat.recv_loop w pre st = Ret (None, st') ∧ e ≠ io_EOF)
  ∨ (∃ pre r d ds rest st1, stream = pre ++ Recv r :: rest
     ∧ forallb chat.is_recv pre = true
     ∧ chat.recv_loop w pre st = Ret (None, st1)
     ∧ SChoices r = d :: ds ∧ chat.on_content w d st1 = (Some e, st')).
Proof.
  revert st. induction stream as [|[r|e0] stream IH]; intros st; cbn; [done| |].
  - destruct (SChoices r) as [|d ds] eqn:Hd.
    + intros Hrun. destruct (IH st Hrun)
        as [(pre & rest & -> & Hpre & Hp & He)
           |(pre & r' & d' & ds' & rest & st1 & -> & Hpre & Hp & Hd' & Hw)].
      * left. exists (Recv r :: pre), rest. cbn. by rewrite Hd.
      * right. exists (Recv r :: pre), r', d', ds', rest, st1. cbn. by rewrite Hd.
    + destruct (chat.on_content w d st) as [[err|] st1] eqn:Hw.
      * intros ?. simplify_eq. right. by exists [], r, d, ds, stream, st.
      * destruct (for_range chat.on_tool_delta (DToolCalls d) st1) as [st2|] eqn:Hf;
          [|done].
        cbn. intros Hrun. destruct (IH st2 Hrun)
          as [(pre & rest & -> & Hpre & Hp & He)
             |(pre & r' & d' & ds' & rest & st3 & -> & Hpre & Hp & Hd' & Hw')].
        -- left. exists (Recv r :: pre), rest. cbn. by rewrite Hd, Hw, Hf.
        -- right. exists (Recv r :: pre), r', d', ds', rest, st3. cbn.
           by rewrite Hd, Hw, Hf.
  - case_decide; [done|]. intros ?. simplify_eq. left. by exists [], stream.
Qed.

Lemma doStream_error_is_failure c req w sink e c' sink' :
  chat.doStream c req w sink = Ret (Error e, c', sink') →
  chat.stream_fails w sink (CreateChatCompletionStream req) e sink'.
Proof.
  unfold chat.doStream.
  destruct (CreateChatCompletionStream req) as [stream|e0];
    [|intros ?; simplify_eq; constructor].
  destruct (chat.recv_loop w stream (chat.start sink)) as [[[err|] st]|] eqn:Hrun;
    cbn; [| |done].
  - intros ?. simplify_eq.
    destruct (recv_loop_error _ _ _ _ _ Hrun)
      as [(pre & rest & -> & Hpre & Hp & He)
         |(pre & r' & d' & ds' & rest & st1 & -> & Hpre & Hp & Hd' & Hw)].
    + by apply chat.fails_recv.
    + by eapply chat.fails_sink.
  - case_decide; [|done].
    by destruct (history.Store _ (chat.history c)) as [[? h]|].
Qed.

(** C6: when a streaming model call fails -- the stream cannot be
    opened, [Recv] reports an error other than [io.EOF], or the sink
    refuses a write -- [doStream] returns that error with the session
    untouched, and the turn [Chat.Chat] returns the same error, its
    history holding what the turn appended before the call (the user
    message or the tool results) and nothing of the assistant's text. *)
Theorem stream_error_not_committed (now : Z) c (message : string)
    (opts : list chat.Opts) (sink : list string) h e sink' :
  chat.stream (chat.options c opts) = true →
  chat.append_turn (chat.options c opts) message (chat.history c) = Ret h →
  chat.stream_fails (chat.writeFunc (chat.options c opts)) sink
    (CreateChatCompletionStream (chat.request (chat.options c opts) h)) e sink' →
  chat.doStream (chat.with_history h c) (chat.request (chat.options c opts) h)
    (chat.writeFunc (chat.options c opts)) sink
  = Ret (Error e, chat.with_history h c, sink')
  ∧ ∃ c', chat.Chat_Chat now c message opts sink = Ret (Error e, c', sink')
          ∧ chat.history c' = h
          ∧ chat.History c' = history.Slice h.
Proof.
  intros Hstream Happ Hfail.
  pose proof (doStream_fails (chat.with_history h c) _ _ _ _ _ Hfail) as Hdo.
  split; [exact Hdo|].
  unfold chat.Chat_Chat. rewrite Happ, Hstream. cbn. rewrite Hdo. cbn.
  by eexists.
Qed.

(** C9: when the first tool-call delta of a stream has an empty id, and
    the sink takes every write, [doStream] does not return: it panics on
    the missing entry. *)
Theorem doStream_orphan_delta_panics c req w (sink : list string) stream tc :
  CreateChatCompletionStream req = OK stream →
  (∀ l s, w l s = None) →
  chat.first_tool_delta stream = Some tc →
  ID tc = "" →
  chat.doStream c req w sink = Panic.
Proof.
  intros Hreq Hw Hfirst Hid. unfold chat.doStream. rewrite Hreq.
  by rewrite (recv_loop_orphan w stream (chat.start sink) tc).
Qed.
End with_backend.

(** C5: the two fragments of the example give one tool call, with the
    argument texts joined in arrival order; nothing is written to the
    sink and the session is as before.  In general, a delta with a new
    non-empty id opens an entry under that id and makes it the current
    one, and a delta with an empty id adds its argument text to the end
    of the current entry's. *)
Theorem doStream_joins_fragments (c : chat.Chat) req w (sink : list string) :
  chat.doStream
    (backend := demo.scripted
       (OK [demo.chunk "" "" [demo.delta "a" "f" ("{" +:+ demo.dq +:+ "x" +:+ demo.dq +:+ ":")];
            demo.chunk "" "" [demo.delta "" "" "1}"]]))
    c req w sink
  = Ret (OK {[ "a" := demo.delta "a" "f" ("{" +:+ demo.dq +:+ "x" +:+ demo.dq +:+ ":1}") ]},
         c, sink)
  ∧ (∀ tc st,
       ID tc ≠ "" → chat.toolCallMap st !! ID tc = None →
       ∃ st', chat.on_tool_delta tc st = Ret st'
              ∧ chat.toolCallMap st'
                = <[ID tc := {| ID := ID tc;
                                Function := {| Name := Name (Function tc);
                                               Arguments := Arguments (Function tc) |};
                                Type_ := Type_ tc |}]> (chat.toolCallMap st)
              ∧ chat.lastCallID st' = ID tc)
  ∧ (∀ tc st t,
       ID tc = "" → chat.toolCallMap st !! chat.lastCallID st = Some t →
       ∃ st' t', chat.on_tool_delta tc st = Ret st'
                 ∧ chat.toolCallMap st' = <[chat.lastCallID st := t']> (chat.toolCallMap st)
                 ∧ ID t' = ID t
                 ∧ Name (Function t') = Name (Function t)
                 ∧ Arguments (Function t')
                   = Arguments (Function t) +:+ Arguments (Function tc)
                 ∧ chat.lastCallID st' = chat.lastCallID st).
Proof.
  split; [vm_compute; reflexivity|]. split.
  - intros tc st Hid Hnew. rewrite on_tool_delta_new by done. by eexists.
  - intros tc st t Hid Hcur. rewrite (on_tool_delta_continue tc st t) by done.
    by eexists _, _.
Qed.

(** The same two deltas in a single chunk. *)
Lemma doStream_joins_fragments_one_chunk (c : chat.Chat) req w (sink : list string) :
  chat.doStream
    (backend := demo.scripted
       (OK [demo.chunk "" "" [demo.delta "a" "f" ("{" +:+ demo.dq +:+ "x" +:+ demo.dq +:+ ":");
                             demo.delta "" "" "1}"]]))
    c req w sink
  = Ret (OK {[ "a" := demo.delta "a" "f" ("{" +:+ demo.dq +:+ "x" +:+ demo.dq +:+ ":1}") ]},
         c, sink).
Proof. vm_compute. reflexivity. Qed.

(** X2: for the text deltas [Hel] and [lo] and no tool calls, the sink
    is handed exactly these two texts, in this order, and one assistant
    message [Hello] is stored in the history; no tool call is returned. *)
Theorem doStream_forwards_text (c : chat.Chat) req (sink : list string) :
  chat.doStream (backend := demo.hello) c req (λ _ _, None) sink
  = '(_, h) ← history.Store (chat.text_message "assistant" "Hello") (chat.history c);
    Ret (OK ∅, chat.with_history h c, sink ++ ["Hel"; "lo"]).
Proof.
  replace (sink ++ ["Hel"; "lo"]) with ((sink ++ ["Hel"]) ++ ["lo"])
    by (by rewrite <- app_assoc).
  reflexivity.
Qed.

(** C6 on a stream that breaks after the text [Hel]: the turn returns
    the error, the sink keeps what it was handed, and the history holds
    the user message alone. *)
Lemma stream_error_not_committed_witness :
  ∃ h,
    chat.append_turn
      (chat.options (chat.New "k" "m" [chat.WithMaxHistory 4]) [chat.WithStream true])
      "hi" (chat.history (chat.New "k" "m" [chat.WithMaxHistory 4])) = Ret h
    ∧ history.Slice h = [chat.text_message "user" "hi"]
    ∧ chat.doStream
        (backend := demo.scripted
           (OK [demo.chunk "assistant" "Hel" []; RecvErr (Err "connection reset")]))
        (chat.with_history h (chat.New "k" "m" [chat.WithMaxHistory 4]))
        (chat.request
           (chat.options (chat.New "k" "m" [chat.WithMaxHistory 4]) [chat.WithStream true]) h)
        (chat.writeFunc
           (chat.options (chat.New "k" "m" [chat.WithMaxHistory 4]) [chat.WithStream true]))
        []
      = Ret (Error (Err "connection reset"),
             chat.with_history h (chat.New "k" "m" [chat.WithMaxHistory 4]), ["Hel"])
    ∧ ∃ c',
        chat.Chat_Chat
          (backend := demo.scripted
             (OK [demo.chunk "assistant" "Hel" []; RecvErr (Err "connection reset")]))
          7 (chat.New "k" "m" [chat.WithMaxHistory 4]) "hi" [chat.WithStream true] []
        = Ret (Error (Err "connection reset"), c', ["Hel"])
        ∧ chat.history c' = h
        ∧ chat.History c' = history.Slice h.
Proof.
  eexists. split; [reflexivity|]. split; [reflexivity|].
  apply (stream_error_not_committed
           (backend := demo.scripted
              (OK [demo.chunk "assistant" "Hel" []; RecvErr (Err "connection reset")]))
           7 (chat.New "k" "m" [chat.WithMaxHistory 4]) "hi" [chat.WithStream true] []
           _ (Err "connection reset")
           (chat.written (chat.mkAssembly ∅ "" "Hel" ["Hel"]))).
  - reflexivity.
  - reflexivity.
  - apply (chat.fails_recv _ [] [demo.chunk "assistant" "Hel" []]
             (Err "connection reset") [] (chat.mkAssembly ∅ "" "Hel" ["Hel"]));
      [reflexivity | reflexivity | discriminate].
Defined.

(** C9 on a stream whose only delta has an empty id. *)
Lemma doStream_orphan_delta_panics_witness :
  chat.doStream (backend := demo.scripted (OK [demo.chunk "" "" [demo.delta "" "" "1}"]]))
    (chat.New "k" "m" [])
    (chat.request (chat.options (chat.New "k" "m" []) []) (history.New 4))
    (λ _ _, None) []
  = Panic.
Proof.
  apply (doStream_orphan_delta_panics
           (backend := demo.scripted (OK [demo.chunk "" "" [demo.delta "" "" "1}"]]))
           _ _ _ _ [demo.chunk "" "" [demo.delta "" "" "1}"]] (demo.delta "" "" "1}"));
    reflexivity.
Defined.
End chat_facts.

(** ** The MCP client and the tool round *)

Module mcpcli_facts.
Import model.

Section mcpcli_facts.
Context {crypto : Crypto} {json : Json} {servers : ToolServers}.
Implicit Types (m : mcpcli.McpClient) (tc : ToolCall).

Lemma for_range_app {X S : Type} (body : X → S → res S) (l1 l2 : list X) (s : S) :
  for_range body (l1 ++ l2) s = for_range body l1 s ≫= for_range body l2.
Proof.
  revert s. induction l1 as [|x l1 IH]; intros s; [done|].
  cbn. destruct (body x s) as [s'|]; [apply IH|done].
Qed.

Lemma loadTools_miss m (mcpUri : string) :
  mcpcli.clis m !! GetSHA1 mcpUri = None → mcpcli.loadTools m mcpUri = Panic.
Proof. intros Hm. unfold mcpcli.loadTools. by rewrite Hm. Qed.

(** Even with a connection in place, the first listed tool is written
    into the nil routing index. *)
Lemma loadTools_nil_idx m (mcpUri : string) c t ts :
  mcpcli.idx m = None →
  mcpcli.clis m !! GetSHA1 mcpUri = Some c →
  ListTools (mcpcli.cli c) = OK (t :: ts) →
  mcpcli.loadTools m mcpUri = Panic.
Proof.
  intros Hidx Hc Hl. unfold mcpcli.loadTools. rewrite Hc, Hl. cbn.
  unfold mcpcli.register. destruct t as [[name description] properties].
  by rewrite Hidx.
Qed.

Lemma AddTools_empty m : mcpcli.AddTools m "" = Ret (None, m).
Proof. done. Qed.

(** C10: [New] leaves the routing index nil, and on the new client every
    non-empty URI misses in [clis], so [loadTools] dereferences nil and
    the first [AddTools] panics instead of registering tools. *)
Theorem AddTools_fresh_panics (mcpUri : string) :
  mcpUri ≠ "" →
  mcpcli.idx mcpcli.New = None
  ∧ mcpcli.loadTools mcpcli.New mcpUri = Panic
  ∧ mcpcli.AddTools mcpcli.New mcpUri = Panic.
Proof.
  intros Huri. split; [done|].
  assert (mcpcli.loadTools mcpcli.New mcpUri = Panic) as Hload
    by by apply loadTools_miss.
  split; [done|]. unfold mcpcli.AddTools. rewrite decide_False by done.
  by rewrite Hload.
Qed.

(** What [Call] gets right: arguments that do not parse, and a tool that
    fails or times out, come back as errors. *)
Lemma Call_bad_arguments m tc opts err :
  UnmarshalArgs (Arguments (Function tc)) = Error err →
  mcpcli.Call m tc opts = Ret (Error err).
Proof. intros Hp. unfold mcpcli.Call. by rewrite Hp. Qed.

Lemma Call_tool_error m tc opts arg mc err :
  UnmarshalArgs (Arguments (Function tc)) = OK arg →
  mcpcli.clis m !! mcpcli.idx_get m (Name (Function tc)) = Some mc →
  CallTool (mcpcli.cli mc) (Name (Function tc)) arg
    (mcpcli.timeout (foldl (λ co o, o co) (mcpcli.mkOpt (60 * mcpcli.second)) opts))
  = Error err →
  mcpcli.Call m tc opts = Ret (Error err).
Proof. intros Hp Hm Hc. unfold mcpcli.Call. by rewrite Hp, Hm, Hc. Qed.

(** A tool name with no server behind it: nil is dereferenced. *)
Lemma Call_unrouted m tc opts arg :
  UnmarshalArgs (Arguments (Function tc)) = OK arg →
  mcpcli.clis m !! mcpcli.idx_get m (Name (Function tc)) = None →
  mcpcli.Call m tc opts = Panic.
Proof. intros Hp Hm. unfold mcpcli.Call. by rewrite Hp, Hm. Qed.

(** A failed call adds a log entry and no message. *)
Lemma tool_task_dropped m tc err msgs logs :
  mcpcli.Call m tc [mcpcli.WithTimeout (60 * mcpcli.second)] = Ret (Error err) →
  llm.tool_task m tc (msgs, logs)
  = Ret (msgs, logs ++ ["mcp call " +:+ Name (Function tc) +:+ " error: "
                        +:+ error_text err]).
Proof. intros Hc. unfold llm.tool_task. by rewrite Hc. Qed.

Lemma Go_counter {S : Type} (task : S → res S) wg s wg' s' :
  sync.Go task (wg, s) = Ret (wg', s') → wg' = wg.
Proof.
  unfold sync.Go, sync.Add, sync.Done. cbn.
  destruct (task s); cbn; [|done]. intros ?. simplify_eq. lia.
Qed.

Lemma tasks_counter m calls wg out wg' out' :
  for_range (λ v, sync.Go (llm.tool_task m v)) calls (wg, out) = Ret (wg', out') →
  wg' = wg.
Proof.
  revert wg out. induction calls as [|v calls IH]; intros wg out; cbn.
  - intros ?. by simplify_eq.
  - destruct (sync.Go (llm.tool_task m v) (wg, out)) as [[wg1 out1]|] eqn:Hgo; [|done].
    cbn. intros Hrest. apply Go_counter in Hgo as ->. by eapply IH.
Qed.

(** The counter is raised by [Add(l)] and again by each [Go], so with
    any call in the batch [Wait] never returns: the tool round ends in a
    crash or does not end. *)
Lemma dispatch_never_returns m calls logs out :
  llm.dispatch m calls logs = Returned out → calls = [].
Proof.
  unfold llm.dispatch, sync.Wait, sync.Add.
  destruct (for_range _ calls _) as [[wg out']|] eqn:Hrun; [|done].
  apply tasks_counter in Hrun as ->.
  case_decide; [|done]. intros _. destruct calls; [done|]. cbn in *. lia.
Qed.

(** X1: the tool round of a non-empty batch never returns: a task
    panics and the process goes down, or all tasks finish and [wg.Wait]
    waits for a counter that stays at the batch size. *)
Theorem dispatch_blocks_or_crashes m (calls : list ToolCall) (logs : list string) :
  calls ≠ [] →
  llm.dispatch m calls logs = Crashed ∨ llm.dispatch m calls logs = Blocked.
Proof.
  intros Hne. destruct (llm.dispatch m calls logs) as [out| |] eqn:Hd; [|by left|by right].
  by apply dispatch_never_returns in Hd.
Qed.

(** C3, on the code as it is: a tool call whose arguments parse and
    whose name routes to no connection makes [Call] panic, and the panic
    takes down the tool round of any batch that holds the call. *)
Theorem dispatch_unknown_tool_crashes m tc (calls : list ToolCall)
    (logs : list string) arg :
  UnmarshalArgs (Arguments (Function tc)) = OK arg →
  mcpcli.clis m !! mcpcli.idx_get m (Name (Function tc)) = None →
  tc ∈ calls →
  mcpcli.Call m tc [mcpcli.WithTimeout (60 * mcpcli.second)] = Panic
  ∧ llm.dispatch m calls logs = Crashed.
Proof.
  intros Hp Hm Hin.
  pose proof (Call_unrouted m tc [mcpcli.WithTimeout (60 * mcpcli.second)] arg Hp Hm)
    as Hcall.
  split; [done|].
  apply list_elem_of_split in Hin as (before & after & ->).
  unfold llm.dispatch. rewrite for_range_app.
  destruct (for_range _ before _) as [[wg out]|]; [|done].
  cbn. unfold llm.tool_task. by rewrite Hcall.
Qed.
End mcpcli_facts.

Import demo.

(** C10 for one URI. *)
Lemma AddTools_fresh_panics_witness :
  mcpcli.idx mcpcli.New = None
  ∧ mcpcli.loadTools
      mcpcli.New "http://127.0.0.1:8080/sse" = Panic
  ∧ mcpcli.AddTools
      mcpcli.New "http://127.0.0.1:8080/sse" = Panic.
Proof.
  apply (AddTools_fresh_panics
           "http://127.0.0.1:8080/sse").
  discriminate.
Defined.

(** X1 for a single call whose arguments do not parse. *)
Lemma dispatch_blocks_or_crashes_witness :
  llm.dispatch mcpcli.New [demo.delta "a" "echo" "not json"] [] = Crashed
  ∨ llm.dispatch mcpcli.New [demo.delta "a" "echo" "not json"] [] = Blocked.
Proof.
  apply (dispatch_blocks_or_crashes mcpcli.New [demo.delta "a" "echo" "not json"] []).
  discriminate.
Defined.

(** C3 on the new client, for a batch of three calls of which the second
    names a tool that was never registered. *)
Lemma dispatch_unknown_tool_crashes_witness :
  mcpcli.Call mcpcli.New
    (demo.delta "b" "weather" "{}") [mcpcli.WithTimeout (60 * mcpcli.second)] = Panic
  ∧ llm.dispatch mcpcli.New
      [demo.delta "a" "echo" "not json";
       demo.delta "b" "weather" "{}";
       demo.delta "c" "echo" "not json"] []
    = Crashed.
Proof.
  eapply (dispatch_unknown_tool_crashes
            mcpcli.New (demo.delta "b" "weather" "{}") _ []).
  - reflexivity.
  - reflexivity.
  - apply list_elem_of_In. cbn. tauto.
Defined.
End mcpcli_facts.

(** ** Storage *)

Module storage_facts.
Import model.

Lemma MemoryStorage_roundtrip (chatid : string) msg (s : storage.MemoryStorage) :
  storage.MemoryStorage_Load chatid (storage.MemoryStorage_Store chatid msg s).2
  = OK msg.
Proof.
  unfold storage.MemoryStorage_Load, storage.MemoryStorage_Store. cbn.
  by rewrite lookup_insert_eq.
Qed.

Lemma MemoryStorage_other (chatid other : string) msg (s : storage.MemoryStorage) :
  chatid ≠ other →
  storage.MemoryStorage_Load other (storage.MemoryStorage_Store chatid msg s).2
  = storage.MemoryStorage_Load other s.
Proof.
  intros Hne. unfold storage.MemoryStorage_Load, storage.MemoryStorage_Store. cbn.
  rewrite lookup_insert_ne by done.
  destruct (storage.data s !! chatid); [done|]. by rewrite lookup_insert_ne.
Qed.

Section file.
Context {json : Json}.
Implicit Types (s : storage.FileStorage).

(** [Load] does not look at its key. *)
Lemma FileStorage_Load_any_key (k1 k2 : string) s :
  storage.FileStorage_Load k1 s = storage.FileStorage_Load k2 s.
Proof. reflexivity. Qed.

(** C4, on the code as it is: with file storage, after two different
    lists were stored under two keys, [Load] returns the same for both
    keys, so for one of them it is not the list stored under it. *)
Theorem FileStorage_roundtrip_fails s (k1 k2 : string)
    (h1 h2 : list ChatCompletionMessage) :
  h1 ≠ h2 →
  storage.FileStorage_Load k1
    (storage.FileStorage_Store k2 h2 (storage.FileStorage_Store k1 h1 s).2).2
  ≠ OK h1
  ∨ storage.FileStorage_Load k2
      (storage.FileStorage_Store k2 h2 (storage.FileStorage_Store k1 h1 s).2).2
    ≠ OK h2.
Proof.
  intros Hne.
  set (s2 := (storage.FileStorage_Store k2 h2 (storage.FileStorage_Store k1 h1 s).2).2).
  destruct (decide (storage.FileStorage_Load k1 s2 = OK h1)) as [Heq|]; [|by left].
  right. rewrite (FileStorage_Load_any_key k2 k1), Heq. congruence.
Qed.
End file.

Import demo.

(** C4's failing input with two keys. *)
Lemma FileStorage_roundtrip_fails_witness :
  storage.FileStorage_Load "a"
    (storage.FileStorage_Store "b" [chat.text_message "user" "second"]
       (storage.FileStorage_Store "a" [chat.text_message "user" "first"]
          (storage.mkFile "chats.db" [])).2).2
  ≠ OK [chat.text_message "user" "first"]
  ∨ storage.FileStorage_Load "b"
      (storage.FileStorage_Store "b" [chat.text_message "user" "second"]
         (storage.FileStorage_Store "a" [chat.text_message "user" "first"]
            (storage.mkFile "chats.db" [])).2).2
    ≠ OK [chat.text_message "user" "second"].
Proof.
  apply (FileStorage_roundtrip_fails (storage.mkFile "chats.db" []) "a" "b"
           [chat.text_message "user" "first"] [chat.text_message "user" "second"]).
  discriminate.
Defined.

(** With one key: what was written is an array, the decoder is asked for
    a single message, and [Load] comes back empty. *)
Lemma FileStorage_Load_after_Store :
  storage.FileStorage_Load "a"
    (storage.FileStorage_Store "a" [chat.text_message "user" "first"]
       (storage.mkFile "chats.db" [])).2
  = OK [].
Proof. reflexivity. Qed.
End storage_facts.

(** ** The registry *)

Module llm_facts.
Import model.

Section llm_facts.
Context {crypto : Crypto} {json : Json} {servers : ToolServers}.
Implicit Types (cm : llm.ChatsManager) (id : string).

Lemma session_found cm id ch :
  llm.chats cm !! GetSHA1 id = Some ch →
  llm.session cm id = Ret (GetSHA1 id, ch, cm).
Proof. intros Hc. unfold llm.session. by rewrite Hc. Qed.

(** On a miss the session is built from the configuration and the
    storage alone, and put under the caller's [id]. *)
Lemma session_miss cm cm' id slot ch cm1 :
  llm.chats cm !! GetSHA1 id = None →
  llm.session cm id = Ret (slot, ch, cm1) →
  llm.chats cm' !! GetSHA1 id = None →
  llm.cnf cm' = llm.cnf cm →
  slot = id
  ∧ llm.chats cm1 = <[id := ch]> (llm.chats cm)
  ∧ llm.cnf cm1 = llm.cnf cm
  ∧ ∃ cm2, llm.session cm' id = Ret (id, ch, cm2)
           ∧ llm.chats cm2 = <[id := ch]> (llm.chats cm').
Proof.
  intros Hmiss Hs Hmiss' Hcnf. unfold llm.session in *.
  rewrite Hmiss in Hs. rewrite Hmiss', Hcnf.
  destruct (llm.Storage_Load _ _) as [his|err].
  - destruct (if nonempty his then _ else _) as [ch'|]; [|done].
    cbn in *. simplify_eq. eauto 10.
  - cbn in *. simplify_eq. eauto 10.
Qed.

(** C1, on the code as it is: the lookup uses the hashed key and the
    store the caller's id.  When the two differ, a call that found no
    session puts the new one under [id], leaves the hashed key empty,
    and the next call with the same [id] -- whatever the turn did to the
    session [ch'] in between -- misses again, builds the same new
    session and puts it in place of [ch']. *)
Theorem session_created_again cm id slot ch cm1 :
  llm.chats cm !! GetSHA1 id = None →
  GetSHA1 id ≠ id →
  llm.session cm id = Ret (slot, ch, cm1) →
  slot = id
  ∧ llm.chats cm1 !! id = Some ch
  ∧ llm.chats cm1 !! GetSHA1 id = None
  ∧ ∀ ch' logs, ∃ cm2,
      llm.session (llm.put_session slot ch' logs cm1) id = Ret (id, ch, cm2)
      ∧ llm.chats cm2 !! id = Some ch.
Proof.
  intros Hmiss Hne Hs.
  destruct (session_miss cm cm id slot ch cm1 Hmiss Hs Hmiss eq_refl)
    as (-> & Hchats & Hcnf & _).
  split; [done|]. split; [by rewrite Hchats, lookup_insert_eq|].
  split; [by rewrite Hchats, lookup_insert_ne|].
  intros ch' logs.
  destruct (session_miss cm (llm.put_session id ch' logs cm1) id id ch cm1 Hmiss Hs)
    as (_ & _ & _ & cm2 & Hs2 & Hchats2).
  - cbn. by rewrite Hchats, !lookup_insert_ne.
  - done.
  - exists cm2. split; [done|]. by rewrite Hchats2, lookup_insert_eq.
Qed.

(** X3: with memory storage and capacity at least 1, a session that is
    new to the registry is restored from the list stored under the
    hashed key: its snapshot is that list, cut to its last [maxHistory]
    messages. *)
Theorem session_restores_memory cm id h (s : storage.MemoryStorage) :
  llm.dataStorage (llm.cnf cm)
  = storage.mkStorage _ storage.memory_storage
      (storage.MemoryStorage_Store (GetSHA1 id) h s).2 →
  llm.chats cm !! GetSHA1 id = None →
  1 ≤ llm.maxHistory (llm.cnf cm) →
  ∃ ch cm1, llm.session cm id = Ret (id, ch, cm1)
            ∧ chat.History ch
              = drop (length h - Z.to_nat (llm.maxHistory (llm.cnf cm))) h.
Proof.
  intros Hst Hmiss HC. unfold llm.session. rewrite Hmiss.
  unfold llm.Storage_Load. rewrite Hst. cbn [storage.impl_ops storage.self].
  cbn [storage.Load storage.memory_storage].
  rewrite storage_facts.MemoryStorage_roundtrip.
  destruct (history_facts.StoreMany_New (llm.maxHistory (llm.cnf cm)) h HC)
    as (u & Hu & HS).
  destruct h as [|m h].
  - injection Hu as <-. cbn [nonempty]. eexists _, _.
    split; [reflexivity|]. exact HS.
  - cbn [nonempty]. unfold chat.SetHistory. cbn [chat.New foldl chat.history].
    cbn [chat.WithAPIKey chat.WithMaxHistory chat.maxhistory].
    rewrite Hu. cbn. eexists _, _. split; [done|]. unfold chat.History. by cbn.
Qed.
End llm_facts.

Import demo.

(** C1 for the id [user-123] on a new registry. *)
Lemma session_created_again_witness :
  ∃ ch cm1,
    llm.session (llm.NewChatsManager [llm.WithMaxHistory 8]) "user-123"
    = Ret ("user-123", ch, cm1)
    ∧ GetSHA1 "user-123" = "d5ecfb11836d0806d18f2fd4c815d970bdc54ddc"
    ∧ llm.chats cm1 !! "user-123" = Some ch
    ∧ llm.chats cm1 !! GetSHA1 "user-123" = None
    ∧ ∀ ch' logs, ∃ cm2,
        llm.session (llm.put_session "user-123" ch' logs cm1) "user-123"
        = Ret ("user-123", ch, cm2)
        ∧ llm.chats cm2 !! "user-123" = Some ch.
Proof.
  eexists _, _. split; [reflexivity|]. split; [by vm_compute|].
  apply (session_created_again (llm.NewChatsManager [llm.WithMaxHistory 8])
           "user-123" "user-123").
  - reflexivity.
  - intros Heq. vm_compute in Heq. discriminate Heq.
  - reflexivity.
Defined.

(** X3 with three stored messages and capacity 2. *)
Lemma session_restores_memory_witness :
  ∃ ch cm1,
    llm.session
      (llm.NewChatsManager
         [llm.WithMaxHistory 2;
          llm.WithStorage
            (storage.mkStorage _ storage.memory_storage
               (storage.MemoryStorage_Store (GetSHA1 "user-123")
                  [chat.text_message "user" "one"; chat.text_message "assistant" "two";
                   chat.text_message "user" "three"]
                  storage.NewMemoryStorage).2)])
      "user-123"
    = Ret ("user-123", ch, cm1)
    ∧ chat.History ch
      = [chat.text_message "assistant" "two"; chat.text_message "user" "three"].
Proof.
  apply (session_restores_memory
           (llm.NewChatsManager
              [llm.WithMaxHistory 2;
               llm.WithStorage
                 (storage.mkStorage _ storage.memory_storage
                    (storage.MemoryStorage_Store (GetSHA1 "user-123")
                       [chat.text_message "user" "one"; chat.text_message "assistant" "two";
                        chat.text_message "user" "three"]
                       storage.NewMemoryStorage).2)])
           "user-123"
           [chat.text_message "user" "one"; chat.text_message "assistant" "two";
            chat.text_message "user" "three"]
           storage.NewMemoryStorage).
  - reflexivity.
  - reflexivity.
  - cbn. lia.
Defined.

(** Two turns on one id against a backend that answers [Hello]: the
    second turn starts from an empty history. *)
Lemma second_call_starts_over :
  demo.two_calls (backend := demo.hello) (llm.NewChatsManager [llm.WithMaxHistory 8])
    "user-123" "hi" "again" (λ _ _, None)
  = Some ([chat.text_message "user" "hi"; chat.text_message "assistant" "Hello"],
          [chat.text_message "user" "again"; chat.text_message "assistant" "Hello"]).
Proof. vm_compute. reflexivity. Qed.
End llm_facts.

(** ** The History Buffer in every state it reaches *)

Module history_shape.
Section history_shape.
Context {A : Type}.
Implicit Types (u : history.History A) (r : ring.Ring A).
Implicit Types (cs : list (history.call A)) (msgs l : list A).

Lemma omap_slots k l : omap id (replicate k (@None A) ++ (Some <$> l)) = l.
Proof. by rewrite omap_app, omap_id_replicate_None, omap_id_Some. Qed.

Lemma Slice_packed u r k l :
  history.data u = Some r →
  ring.view r = replicate k None ++ (Some <$> l) →
  history.Slice u = l ∧ (k + length l = length (ring.elems r))%nat.
Proof.
  intros Hr Hv. split.
  - by rewrite (history_facts.Slice_view u r Hr), Hv, omap_slots.
  - rewrite <- ring_facts.length_view, Hv, length_app, length_replicate.
    by rewrite length_fmap.
Qed.

Lemma packed_New (C : Z) : history.packed (A:=A) (history.New C).
Proof.
  unfold history.packed. cbn. destruct (ring.New C) as [r|] eqn:Hr; [|done].
  destruct (ring_facts.view_New _ _ Hr) as [Hv Hwf]. split; [done|].
  exists (Z.to_nat C), []. by rewrite Hv, app_nil_r.
Qed.

(** Appending to a buffer of that shape keeps the shape; the snapshot
    gains the messages at its end and loses what no longer fits. *)
Lemma packed_StoreMany msgs u r :
  history.data u = Some r → history.packed u →
  ∃ u' r', history.StoreMany msgs u = Ret u'
    ∧ history.data u' = Some r'
    ∧ length (ring.elems r') = length (ring.elems r)
    ∧ history.packed u'
    ∧ history.Slice u'
      = drop (length (history.Slice u) + length msgs - length (ring.elems r))
          (history.Slice u ++ msgs).
Proof.
  intros Hr Hp. unfold history.packed in Hp. rewrite Hr in Hp.
  destruct Hp as (Hwf & k & l & Hv).
  destruct (Slice_packed u r k l Hr Hv) as [HS Hn].
  destruct (history_facts.StoreMany_view msgs u r Hr Hwf)
    as (r' & Hst & Hwf' & Hlen & Hv').
  assert (ring.view r'
          = replicate (k - length msgs) None
            ++ (Some <$> drop (length msgs - k) (l ++ msgs))) as Hshape.
  { rewrite Hv', Hv, <- app_assoc, <- fmap_app, drop_app, length_replicate.
    by rewrite drop_replicate, fmap_drop. }
  eexists _, r'. split; [exact Hst|]. split; [done|]. split; [done|].
  split.
  - unfold history.packed. cbn. split; [done|]. eauto.
  - destruct (Slice_packed (history.mk (Some r') (history.maxContext u)) r' _ _
                eq_refl Hshape) as [-> _].
    rewrite HS. f_equal. lia.
Qed.

(** [Clear] on a buffer of that shape keeps the shape; the snapshot
    loses its oldest message when the buffer is full, and nothing
    otherwise. *)
Lemma packed_Clear u r :
  history.data u = Some r → history.packed u →
  history.data (history.Clear u) = Some (ring.set_Value None r)
  ∧ history.packed (history.Clear u)
  ∧ history.Slice (history.Clear u)
    = drop (length (history.Slice u) + 1 - length (ring.elems r)) (history.Slice u).
Proof.
  intros Hr Hp. unfold history.packed in Hp. rewrite Hr in Hp.
  destruct Hp as (Hwf & k & l & Hv).
  destruct (Slice_packed u r k l Hr Hv) as [HS Hn].
  rewrite (history_facts.Clear_current_only u r Hr Hwf).
  pose proof (ring_facts.view_set_Value None r Hwf) as Hv'. rewrite Hv in Hv'.
  assert (ring.view (ring.set_Value None r)
          = replicate (S (k - 1)) None ++ (Some <$> drop (1 - k) l)) as Hshape.
  { rewrite Hv'. destruct k as [|k]; cbn.
    - destruct l as [|x l]; [|done]. cbn in *. unfold ring.wf in Hwf. lia.
    - by rewrite Nat.sub_0_r. }
  split; [done|]. split.
  - unfold history.packed. cbn. split; [by apply ring_facts.wf_set_Value|]. eauto.
  - destruct (Slice_packed (history.mk (Some (ring.set_Value None r))
                              (history.maxContext u)) _ _ _ eq_refl Hshape)
      as [-> _].
    rewrite HS. f_equal. lia.
Qed.

Lemma packed_exec c u u' :
  history.packed u → history.exec c u = Ret u' → history.packed u'.
Proof.
  intros Hp. destruct (history.data u) as [r|] eqn:Hr.
  - destruct c as [msg|msgs|]; cbn.
    + rewrite history_facts.Store_StoreMany.
      destruct (packed_StoreMany [msg] u r Hr Hp) as (u1 & r1 & -> & _ & _ & Hp1 & _).
      by intros [= <-].
    + destruct (packed_StoreMany msgs u r Hr Hp) as (u1 & r1 & -> & _ & _ & Hp1 & _).
      by intros [= <-].
    + intros [= <-]. by destruct (packed_Clear u r Hr Hp) as (_ & ? & _).
  - destruct c as [msg|msgs|]; cbn.
    + unfold history.Store, history.put. by rewrite Hr.
    + destruct msgs as [|m msgs]; cbn.
      * by intros [= <-].
      * unfold history.put. by rewrite Hr.
    + intros [= <-]. by rewrite (history_facts.Clear_nil u Hr).
Qed.

Lemma packed_run cs u u' :
  history.packed u → history.run cs u = Ret u' → history.packed u'.
Proof.
  revert u. induction cs as [|c cs IH]; intros u Hp; cbn.
  - by intros [= <-].
  - destruct (history.exec c u) as [u1|] eqn:Hc; [|done]. cbn.
    apply IH. by eapply packed_exec.
Qed.

(** A buffer reached from [New C] with [C >= 1]: its ring has [C]
    elements. *)
Lemma reached cs (C : Z) u :
  1 ≤ C → history.run cs (history.New C) = Ret u →
  history.packed u
  ∧ ∃ r, history.data u = Some r ∧ length (ring.elems r) = Z.to_nat C.
Proof.
  intros HC Hrun. split; [by eapply packed_run, Hrun; apply packed_New|].
  destruct (history_facts.run_Len cs _ u (history_facts.ok_New C) Hrun) as [HL _].
  rewrite history_facts.Len_New in HL by lia. unfold history.Len in HL.
  destruct (history.data u) as [r|]; cbn in HL; [|lia].
  exists r. split; [done|]. lia.
Qed.

Lemma packed_Slice_le u r :
  history.data u = Some r → history.packed u →
  (length (history.Slice u) ≤ length (ring.elems r))%nat.
Proof.
  intros Hr Hp. unfold history.packed in Hp. rewrite Hr in Hp.
  destruct Hp as (_ & k & l & Hv).
  destruct (Slice_packed u r k l Hr Hv) as [-> Hn]. lia.
Qed.

(** X5: whatever was stored or cleared, the snapshot never holds more
    messages than the capacity [Len] reports. *)
Theorem Slice_within_capacity cs (C : Z) u :
  history.run cs (history.New C) = Ret u →
  Z.of_nat (length (history.Slice u)) ≤ history.Len u.
Proof.
  intros Hrun.
  pose proof (packed_run cs _ u (packed_New C) Hrun) as Hp.
  unfold history.Len. destruct (history.data u) as [r|] eqn:Hr.
  - pose proof (packed_Slice_le u r Hr Hp). cbn. lia.
  - by rewrite (history_facts.Slice_nil u Hr).
Qed.

(** X6: [StoreMany] (and [Store], its one-message case) on a buffer that
    holds the snapshot [s]: it returns, and the new snapshot is the last
    [C] messages of [s] followed by the new ones -- also after a
    [Clear]. *)
Theorem StoreMany_slides cs (C : Z) u msgs (m : A) :
  1 ≤ C →
  history.run cs (history.New C) = Ret u →
  (∃ u', history.StoreMany msgs u = Ret u'
         ∧ history.Slice u'
           = drop (length (history.Slice u) + length msgs - Z.to_nat C)
               (history.Slice u ++ msgs))
  ∧ (∃ u', history.Store m u = Ret (true, u')
           ∧ history.Slice u'
             = drop (length (history.Slice u) + 1 - Z.to_nat C)
                 (history.Slice u ++ [m])).
Proof.
  intros HC Hrun. destruct (reached cs C u HC Hrun) as (Hp & r & Hr & Hn).
  split.
  - destruct (packed_StoreMany msgs u r Hr Hp) as (u' & r' & Hst & _ & _ & _ & HS).
    exists u'. split; [done|]. by rewrite HS, Hn.
  - destruct (packed_StoreMany [m] u r Hr Hp) as (u' & r' & Hst & _ & _ & _ & HS).
    exists u'. split.
    + unfold history.Store. cbn in Hst.
      destruct (history.put m u) as [u1|]; [|done].
      injection Hst as ->. reflexivity.
    + by rewrite HS, Hn.
Qed.

(** X7: [Clear] on any buffer reached from [New C], [C >= 1]: the
    snapshot loses its oldest message when it held [C] messages, and
    stays as it was when it held fewer. *)
Theorem Clear_drops_oldest_when_full cs (C : Z) u :
  1 ≤ C →
  history.run cs (history.New C) = Ret u →
  history.Slice (history.Clear u)
  = if decide (length (history.Slice u) = Z.to_nat C)
    then drop 1 (history.Slice u) else history.Slice u.
Proof.
  intros HC Hrun. destruct (reached cs C u HC Hrun) as (Hp & r & Hr & Hn).
  destruct (packed_Clear u r Hr Hp) as (_ & _ & ->). rewrite Hn.
  pose proof (packed_Slice_le u r Hr Hp) as Hle.
  case_decide as Hfull.
  - f_equal. lia.
  - replace (length (history.Slice u) + 1 - Z.to_nat C)%nat with 0%nat by lia.
    done.
Qed.

(** X8: a buffer made with a capacity of zero or less has the nil ring:
    every [Store] panics, [StoreMany] panics unless it is given no
    message, and the snapshot is empty. *)
Theorem nil_buffer (C : Z) (m : A) msgs :
  C ≤ 0 →
  history.Store m (history.New C) = Panic
  ∧ history.StoreMany msgs (history.New C)
    = (if nonempty msgs then Panic else Ret (history.New C))
  ∧ history.Slice (A:=A) (history.New C) = []
  ∧ history.Len (A:=A) (history.New C) = 0.
Proof.
  intros HC.
  assert (history.data (A:=A) (history.New C) = None) as Hnil.
  { unfold history.New, ring.New. cbn. by rewrite decide_True. }
  split; [unfold history.Store, history.put; by rewrite Hnil|].
  split.
  - destruct msgs as [|x msgs]; [done|]. cbn. unfold history.put. by rewrite Hnil.
  - split; [by apply history_facts.Slice_nil|]. unfold history.Len. by rewrite Hnil.
Qed.
End history_shape.

(** X5 on a buffer of capacity 2 after three stores. *)
Lemma Slice_within_capacity_witness :
  Z.of_nat (length (history.Slice
                      (history.mk (Some (ring.mk [Some 3%nat; Some 2%nat] 1)) 4)))
  ≤ history.Len (history.mk (Some (ring.mk [Some 3%nat; Some 2%nat] 1)) 4).
Proof.
  apply (Slice_within_capacity [history.CallStoreMany [1; 2; 3]%nat] 2).
  reflexivity.
Defined.

(** X6 on a buffer of capacity 3 that was filled and cleared. *)
Lemma StoreMany_slides_witness :
  (∃ u', history.StoreMany [4; 5]%nat
           (history.mk (Some (ring.mk [None; Some 2%nat; Some 3%nat] 0)) 6) = Ret u'
         ∧ history.Slice u' = [3; 4; 5]%nat)
  ∧ (∃ u', history.Store 4%nat
             (history.mk (Some (ring.mk [None; Some 2%nat; Some 3%nat] 0)) 6)
           = Ret (true, u')
           ∧ history.Slice u' = [2; 3; 4]%nat).
Proof.
  apply (StoreMany_slides
           [history.CallStoreMany [1; 2; 3]%nat; history.CallClear] 3
           (history.mk (Some (ring.mk [None; Some 2%nat; Some 3%nat] 0)) 6)
           [4; 5]%nat 4%nat); [lia | reflexivity].
Defined.

(** X7 on a full buffer of capacity 3. *)
Lemma Clear_drops_oldest_when_full_witness :
  history.Slice
    (history.Clear
       (history.mk (Some (ring.mk [Some 1%nat; Some 2%nat; Some 3%nat] 0)) 6))
  = [2; 3]%nat.
Proof.
  apply (Clear_drops_oldest_when_full [history.CallStoreMany [1; 2; 3]%nat] 3);
    [lia | reflexivity].
Defined.

(** X8 for capacity 0. *)
Lemma nil_buffer_witness :
  history.Store 1%nat (history.New 0) = Panic
  ∧ history.StoreMany [1; 2]%nat (history.New 0) = Panic
  ∧ history.Slice (A:=nat) (history.New 0) = []
  ∧ history.Len (A:=nat) (history.New 0) = 0.
Proof. apply (nil_buffer 0 1%nat [1; 2]%nat). lia. Defined.
End history_shape.

(** ** The JSON methods of the History Buffer *)

Module json_facts.
Import model.

Section json_facts.
Context {json : Json} {json_list : JsonList}.
Implicit Types u : history.History ChatCompletionMessage.

(** X9: [FromJSON] on a buffer reached from [New C], [C >= 1].  A text
    that does not decode gives the decoder's error and leaves the buffer
    as it is.  A text that decodes to [msgs] is appended: the snapshot
    becomes the last [C] messages of the old snapshot followed by
    [msgs]; the old messages are not cleared first. *)
Theorem FromJSON_appends cs (C : Z) u (s : string) :
  1 ≤ C →
  history.run cs (history.New C) = Ret u →
  match UnmarshalMessages s with
  | Error err => history_json.FromJSON s u = Ret (Some err, u)
  | OK msgs =>
      ∃ u', history_json.FromJSON s u = Ret (None, u')
            ∧ history.Slice u'
              = drop (length (history.Slice u) + length msgs - Z.to_nat C)
                  (history.Slice u ++ msgs)
  end.
Proof.
  intros HC Hrun. unfold history_json.FromJSON.
  destruct (UnmarshalMessages s) as [msgs|err]; [|done].
  destruct (history_shape.reached cs C u HC Hrun) as (Hp & r & Hr & Hn).
  destruct (history_shape.packed_StoreMany msgs u r Hr Hp)
    as (u' & r' & -> & _ & _ & _ & HS).
  exists u'. split; [done|]. by rewrite HS, Hn.
Qed.

(** X10: when the codec reads back what it wrote for the snapshot of
    [u], [FromJSON (ToJSON u)] on a new buffer of the same capacity
    gives a buffer with the snapshot of [u]. *)
Theorem ToJSON_FromJSON cs (C : Z) u (s : string) :
  1 ≤ C →
  history.run cs (history.New C) = Ret u →
  MarshalMessages (history.Slice u) = OK s →
  UnmarshalMessages s = OK (history.Slice u) →
  ∃ u', history_json.FromJSON (history_json.ToJSON u) (history.New C) = Ret (None, u')
        ∧ history.Slice u' = history.Slice u.
Proof.
  intros HC Hrun Hm Hu. unfold history_json.ToJSON, history_json.FromJSON.
  rewrite Hm, Hu.
  destruct (history_shape.reached cs C u HC Hrun) as (Hp & r & Hr & Hn).
  pose proof (history_shape.packed_Slice_le u r Hr Hp) as Hle.
  destruct (history_facts.StoreMany_New C (history.Slice u) HC) as (u' & -> & HS).
  exists u'. split; [done|]. rewrite HS.
  replace (length (history.Slice u) - Z.to_nat C)%nat with 0%nat by lia. done.
Qed.
End json_facts.

Import demo.

(** X9 for a text that decodes to one message, on a buffer of capacity 2
    that holds two. *)
Lemma FromJSON_appends_witness :
  ∃ u', history_json.FromJSON "[{assistant:Hello:}]"
          (history.mk
             (Some (ring.mk [Some (chat.text_message "user" "hi");
                             Some (chat.text_message "user" "again")] 0)) 4)
        = Ret (None, u')
        ∧ history.Slice u'
          = [chat.text_message "user" "again"; chat.text_message "assistant" "Hello"].
Proof.
  exact (FromJSON_appends
           [history.CallStoreMany [chat.text_message "user" "hi";
                                   chat.text_message "user" "again"]] 2
           (history.mk
              (Some (ring.mk [Some (chat.text_message "user" "hi");
                              Some (chat.text_message "user" "again")] 0)) 4)
           "[{assistant:Hello:}]" ltac:(lia) eq_refl).
Defined.

(** X10 for a buffer of capacity 2 that holds two messages. *)
Lemma ToJSON_FromJSON_witness :
  ∃ u', history_json.FromJSON
          (history_json.ToJSON
             (history.mk
                (Some (ring.mk [Some (chat.text_message "user" "hi");
                                Some (chat.text_message "assistant" "Hello")] 0)) 4))
          (history.New 2)
        = Ret (None, u')
        ∧ history.Slice u'
          = [chat.text_message "user" "hi"; chat.text_message "assistant" "Hello"].
Proof.
  apply (ToJSON_FromJSON
           [history.CallStoreMany [chat.text_message "user" "hi";
                                   chat.text_message "assistant" "Hello"]] 2
           (history.mk
              (Some (ring.mk [Some (chat.text_message "user" "hi");
                              Some (chat.text_message "assistant" "Hello")] 0)) 4)
           "[{user:hi:},{assistant:Hello:}]");
    [lia | reflexivity | reflexivity | reflexivity].
Defined.
End json_facts.

(** ** Streaming and complete responses, in general *)

Module reply_facts.
Import model.

Lemma append_empty_r (s : string) : s +:+ "" = s.
Proof.
  induction s as [|a s IH]; [done|].
  change (String a (s +:+ "") = String a s). by rewrite IH.
Qed.

Lemma append_assoc (a b c : string) : (a +:+ b) +:+ c = a +:+ (b +:+ c).
Proof.
  induction a as [|x a IH]; [done|].
  change (String x ((a +:+ b) +:+ c) = String x (a +:+ (b +:+ c))). by rewrite IH.
Qed.

Lemma rebuild tc :
  {| ID := ID tc;
     Function := {| Name := Name (Function tc); Arguments := Arguments (Function tc) |};
     Type_ := Type_ tc |} = tc.
Proof. by destruct tc as [? [? ?] ?]. Qed.

Section assembler.
Implicit Types (st : chat.assembly) (w : WriteFunc) (tc : ToolCall).

Lemma on_tool_delta_text tc st st' :
  chat.on_tool_delta tc st = Ret st' →
  chat.message st' = chat.message st ∧ chat.written st' = chat.written st.
Proof.
  unfold chat.on_tool_delta. case_decide.
  - by intros [= <-].
  - destruct (chat.toolCallMap st !! chat.lastCallID st); [|done]. by intros [= <-].
Qed.

Lemma on_tool_delta_keyed tc st st' :
  chat.keyed (chat.toolCallMap st) →
  chat.on_tool_delta tc st = Ret st' → chat.keyed (chat.toolCallMap st').
Proof.
  intros Hk. unfold chat.on_tool_delta. case_decide as Hid.
  - intros [= <-]. cbn. destruct (chat.toolCallMap st !! ID tc) eqn:Hl; [done|].
    intros k t. rewrite lookup_insert. case_decide as Hkk.
    + intros [= <-]. by subst k.
    + apply Hk.
  - destruct (chat.toolCallMap st !! chat.lastCallID st) as [t0|] eqn:Hl; [|done].
    intros [= <-]. cbn. intros k t. rewrite lookup_insert. case_decide as Hkk.
    + intros [= <-]. cbn. subst k. by apply Hk.
    + apply Hk.
Qed.

Lemma deltas_text tcs st st' :
  for_range chat.on_tool_delta tcs st = Ret st' →
  chat.message st' = chat.message st ∧ chat.written st' = chat.written st.
Proof.
  revert st. induction tcs as [|tc tcs IH]; intros st; cbn.
  - by intros [= <-].
  - destruct (chat.on_tool_delta tc st) as [st1|] eqn:H1; [|done]. cbn. intros H2.
    destruct (IH _ H2) as [-> ->]. by apply (on_tool_delta_text tc).
Qed.

Lemma deltas_keyed tcs st st' :
  chat.keyed (chat.toolCallMap st) →
  for_range chat.on_tool_delta tcs st = Ret st' → chat.keyed (chat.toolCallMap st').
Proof.
  revert st. induction tcs as [|tc tcs IH]; intros st Hk; cbn.
  - by intros [= <-].
  - destruct (chat.on_tool_delta tc st) as [st1|] eqn:H1; [|done]. cbn.
    apply IH. by eapply on_tool_delta_keyed.
Qed.

Lemma on_content_text w d st st' :
  chat.on_content w d st = (None, st') →
  chat.toolCallMap st' = chat.toolCallMap st
  ∧ (if decide (DRole d = ChatMessageRoleAssistant ∧ DContent d ≠ "") then
       chat.message st' = chat.message st +:+ DContent d
       ∧ chat.written st' = chat.written st ++ [DContent d]
     else st' = st).
Proof.
  unfold chat.on_content. case_decide.
  - destruct (w (chat.written st) (DContent d)); [done|]. by intros [= <-].
  - by intros [= <-].
Qed.

(** A loop that ends without an error has forwarded the texts of the
    stream, in order, and gathered them in the builder. *)
Lemma recv_loop_texts w stream st st' :
  chat.recv_loop w stream st = Ret (None, st') →
  chat.written st' = chat.written st ++ chat.texts stream
  ∧ chat.message st' = chat.message st +:+ chat.join (chat.texts stream)
  ∧ (chat.keyed (chat.toolCallMap st) → chat.keyed (chat.toolCallMap st')).
Proof.
  revert st. induction stream as [|[r|e] stream IH]; intros st;
    cbn [chat.recv_loop chat.texts chat.join foldr].
  - intros [= <-]. by rewrite app_nil_r, append_empty_r.
  - fold (chat.join (chat.texts stream)) in *. destruct (SChoices r) as [|d ds]; [apply IH|].
    destruct (chat.on_content w d st) as [[err|] st1] eqn:Hc; [done|].
    destruct (for_range chat.on_tool_delta (DToolCalls d) st1) as [st2|] eqn:Hd;
      [|done].
    cbn. intros Hrun. destruct (IH st2 Hrun) as (Hw & Hm & Hk).
    destruct (deltas_text _ _ _ Hd) as [Hm2 Hw2].
    destruct (on_content_text _ _ _ _ Hc) as [Hmap Ht].
    rewrite Hw, Hm, Hm2, Hw2. split_and!.
    + case_decide; [|by subst st1]. destruct Ht as [_ ->]. by rewrite <- app_assoc.
    + case_decide; [|by subst st1]. destruct Ht as [-> _]. cbn.
      by rewrite append_assoc.
    + intros Hk0. apply Hk. eapply deltas_keyed; [|done]. by rewrite Hmap.
  - case_decide; [|done]. intros [= <-]. by rewrite app_nil_r, append_empty_r.
Qed.
End assembler.

Section with_backend.
Context {backend : Backend}.
Implicit Types (c : chat.Chat) (w : WriteFunc).

(** X11: a streaming call that returns a tool-call map has handed the
    sink the non-empty assistant texts of the stream, each once and in
    arrival order, and has stored one assistant message holding their
    concatenation -- or none when the texts are empty. *)
Theorem doStream_commits_once c req w (sink : list string) stream m c' sink' :
  CreateChatCompletionStream req = OK stream →
  chat.doStream c req w sink = Ret (OK m, c', sink') →
  sink' = sink ++ chat.texts stream
  ∧ if decide (chat.join (chat.texts stream) = "") then c' = c
    else history.Store
           (chat.text_message "assistant" (chat.join (chat.texts stream)))
           (chat.history c)
         = Ret (true, chat.history c')
         ∧ c' = chat.with_history (chat.history c') c.
Proof.
  intros Hreq. unfold chat.doStream. rewrite Hreq.
  destruct (chat.recv_loop w stream (chat.start sink)) as [[[err|] st]|] eqn:Hrun;
    cbn; [done| |done].
  destruct (recv_loop_texts _ _ _ _ Hrun) as (Hw & Hm & _). cbn in Hw, Hm.
  rewrite Hm. case_decide as Hne.
  - rewrite decide_False by done.
    unfold history.Store.
    destruct (history.put _ (chat.history c)) as [h|]; [|done]. cbn.
    intros ?. simplify_eq. by rewrite Hw.
  - rewrite decide_True by (by destruct (decide (chat.join (chat.texts stream) = ""))).
    intros ?. simplify_eq. by rewrite Hw.
Qed.

(** X12: in the map a streaming call returns, every tool call is kept
    under its own id, and none under the empty id. *)
Theorem doStream_map_keyed c req w (sink : list string) m c' sink' :
  chat.doStream c req w sink = Ret (OK m, c', sink') →
  ∀ k t, m !! k = Some t → ID t = k ∧ k ≠ "".
Proof.
  unfold chat.doStream.
  destruct (CreateChatCompletionStream req) as [stream|]; [|done].
  destruct (chat.recv_loop w stream (chat.start sink)) as [[[err|] st]|] eqn:Hrun;
    cbn; [done| |done].
  destruct (recv_loop_texts _ _ _ _ Hrun) as (_ & _ & Hk).
  assert (chat.keyed (chat.toolCallMap st)) as Hkeyed by (apply Hk; intros k t; done).
  case_decide.
  - destruct (history.Store _ (chat.history c)) as [[? h]|]; [|done]. cbn.
    intros ?. by simplify_eq.
  - intros ?. by simplify_eq.
Qed.

Lemma collect_lookup (tcs : list ToolCall) (acc : gmap string ToolCall) (k : string) :
  foldl (λ m tc,
           if decide (ID tc ≠ "") then
             match m !! ID tc with
             | None =>
                 <[ID tc := {| ID := ID tc;
                               Function := {| Name := Name (Function tc);
                                              Arguments := Arguments (Function tc) |};
                               Type_ := Type_ tc |}]> m
             | Some _ => m
             end
           else m) acc tcs !! k
  = match acc !! k with
    | Some t => Some t
    | None => if decide (k = "") then None
              else head (filter (λ tc, ID tc = k) tcs)
    end.
Proof.
  revert acc. induction tcs as [|tc tcs IH]; intros acc; cbn [foldl].
  - destruct (acc !! k); [done|]. by case_decide.
  - rewrite IH. rewrite rebuild. rewrite filter_cons.
    destruct (decide (ID tc ≠ "")) as [Hid|Hid].
    + destruct (acc !! ID tc) as [t0|] eqn:Hl.
      * destruct (acc !! k) as [t|] eqn:Hk; [done|].
        destruct (decide (k = "")); [done|].
        rewrite decide_False; [done|]. intros Heq. rewrite Heq in Hl. congruence.
      * rewrite lookup_insert. destruct (decide (ID tc = k)) as [Heq|Hne]; [|done].
        rewrite <- Heq, Hl. by rewrite decide_False.
    + apply dec_stable in Hid. rewrite Hid.
      destruct (acc !! k); [done|].
      destruct (decide (k = "")) as [->|Hk]; [done|]. by rewrite decide_False.
Qed.

(** X13: in the map a complete (non-streaming) response gives, each tool
    call of the first choice is kept under its id; of several calls with
    one id the first is kept, and calls with an empty id are left out. *)
Theorem do_keeps_first_call c req w (sink : list string) resp ch rest m c' sink' :
  CreateChatCompletion req = OK resp →
  Choices resp = ch :: rest →
  chat.do c req w sink = Ret (OK m, c', sink') →
  ∀ k, m !! k = if decide (k = "") then None
                else head (filter (λ tc, ID tc = k) (MToolCalls ch)).
Proof.
  intros Hreq Hch. unfold chat.do. rewrite Hreq, Hch.
  assert (∀ k, chat.collect_tool_calls (MToolCalls ch) !! k
               = if decide (k = "") then None
                 else head (filter (λ tc, ID tc = k) (MToolCalls ch))) as Hc.
  { intros k. unfold chat.collect_tool_calls. by rewrite collect_lookup, lookup_empty. }
  case_decide.
  - destruct (MContent ch) as [content|]; [|done].
    destruct (StringValue content) as [s|].
    + destruct (w sink s); [done|].
      destruct (history.Store _ (chat.history c)) as [[? h]|]; [|done]. cbn.
      intros ?. by simplify_eq.
    + intros ?. by simplify_eq.
  - intros ?. by simplify_eq.
Qed.

(** What a streaming call that returns a map has done to the history. *)
Lemma doStream_ok_history c req w (sink : list string) m c' sink' :
  chat.doStream c req w sink = Ret (OK m, c', sink') →
  ∃ stream,
    CreateChatCompletionStream req = OK stream
    ∧ history.StoreMany
        (if decide (chat.join (chat.texts stream) ≠ "")
         then [chat.text_message ChatMessageRoleAssistant
                 (chat.join (chat.texts stream))]
         else [])
        (chat.history c)
      = Ret (chat.history c').
Proof.
  unfold chat.doStream.
  destruct (CreateChatCompletionStream req) as [stream|]; [|done].
  destruct (chat.recv_loop w stream (chat.start sink)) as [[[err|] st]|] eqn:Hloop;
    cbn; [done| |done].
  destruct (recv_loop_texts _ _ _ _ Hloop) as (_ & Hm & _).
  change (chat.message st = chat.join (chat.texts stream)) in Hm.
  rewrite Hm. intros Hfin. exists stream. split; [done|].
  destruct (decide (chat.join (chat.texts stream) ≠ "")).
  - unfold history.Store in Hfin. cbn in Hfin |- *.
    destruct (history.put _ (chat.history c)) as [h2|]; [|done].
    cbn in *. by simplify_eq.
  - by simplify_eq.
Qed.

Lemma append_turn_StoreMany co (message : string) h :
  chat.append_turn co message h
  = history.StoreMany
      ((if decide (message ≠ "") then [chat.text_message ChatMessageRoleUser message] else [])
       ++ chat.toolcalled co) h.
Proof.
  unfold chat.append_turn. rewrite history_facts.StoreMany_app.
  assert ((if decide (message ≠ "")
           then snd <$> history.Store (chat.text_message ChatMessageRoleUser message) h
           else Ret h)
          = history.StoreMany
              (if decide (message ≠ "") then [chat.text_message ChatMessageRoleUser message] else [])
              h) as ->.
  { case_decide; [apply history_facts.Store_StoreMany|done]. }
  destruct (history.StoreMany _ h) as [h1|]; [|done]. cbn.
  by destruct (chat.toolcalled co).
Qed.

(** X14: a streaming turn that returns a tool-call map has put into the
    history, in this order, the user message (if the message is not
    empty), the tool results handed in, and one assistant message with
    the text of the stream (if that is not empty); the system-role
    messages are sent but not stored.  The snapshot is the last [C]
    messages of the old snapshot followed by these. *)
Theorem turn_history (now : Z) c (message : string) (opts : list chat.Opts)
    (sink : list string) cs (C : Z) m c' sink' :
  1 ≤ C →
  history.run cs (history.New C) = Ret (chat.history c) →
  chat.stream (chat.options c opts) = true →
  chat.Chat_Chat now c message opts sink = Ret (OK m, c', sink') →
  ∃ h stream,
    chat.append_turn (chat.options c opts) message (chat.history c) = Ret h
    ∧ Messages (chat.request (chat.options c opts) h)
      = chat.roleSystem (chat.options c opts) ++ history.Slice h
    ∧ CreateChatCompletionStream (chat.request (chat.options c opts) h) = OK stream
    ∧ chat.History c'
      = drop (length (chat.History c)
              + length (chat.turn_messages (chat.options c opts) message
                          (chat.join (chat.texts stream)))
              - Z.to_nat C)
          (chat.History c
           ++ chat.turn_messages (chat.options c opts) message
                (chat.join (chat.texts stream)))
    ∧ chat.LastMessage c' = now.
Proof.
  intros HC Hrun Hstream. unfold chat.Chat_Chat. rewrite Hstream.
  destruct (chat.append_turn (chat.options c opts) message (chat.history c))
    as [h|] eqn:Happ; [|done]. cbn.
  destruct (chat.doStream (chat.with_history h c) _ _ sink)
    as [[[r c1] sink1]|] eqn:Hdo; [|done]. cbn.
  intros ?. simplify_eq. exists h.
  destruct (doStream_ok_history _ _ _ _ _ _ _ Hdo) as (stream & Hreq & Hfin).
  exists stream. split; [done|]. split; [done|]. split; [done|].
  split; [|done]. unfold chat.History. cbn.
  destruct (history_shape.reached cs C _ HC Hrun) as (Hp & r & Hr & Hn).
  rewrite append_turn_StoreMany in Happ.
  assert (history.StoreMany
            (chat.turn_messages (chat.options c opts) message
               (chat.join (chat.texts stream))) (chat.history c)
          = Ret (chat.history c1)) as Hall.
  { unfold chat.turn_messages. rewrite app_assoc, history_facts.StoreMany_app, Happ.
    exact Hfin. }
  destruct (history_shape.packed_StoreMany
              (chat.turn_messages (chat.options c opts) message
                 (chat.join (chat.texts stream))) _ r Hr Hp)
    as (u' & r' & Hst & _ & _ & _ & HS).
  rewrite Hall in Hst. simplify_eq. by rewrite HS, Hn.
Qed.

(** X16: in non-streaming mode, a response whose first choice is an
    assistant message with a nil [Content] makes the turn panic, after
    the turn's own appends. *)
Theorem turn_nil_content_panics (now : Z) c (message : string)
    (opts : list chat.Opts) (sink : list string) h resp ch rest :
  chat.stream (chat.options c opts) = false →
  chat.append_turn (chat.options c opts) message (chat.history c) = Ret h →
  CreateChatCompletion (chat.request (chat.options c opts) h) = OK resp →
  Choices resp = ch :: rest →
  MRole ch = "assistant" →
  MContent ch = None →
  chat.Chat_Chat now c message opts sink = Panic.
Proof.
  intros Hs Happ Hreq Hch Hrole Hnil. unfold chat.Chat_Chat.
  rewrite Happ, Hs. cbn. unfold chat.do. rewrite Hreq, Hch.
  rewrite decide_True by done. by rewrite Hnil.
Qed.
End with_backend.

Import demo.

(** X11 for the answer [Hello] streamed in two pieces to a new session
    that keeps three messages. *)
Lemma doStream_commits_once_witness :
  ["Hel"; "lo"] = [] ++ chat.texts [chunk "assistant" "Hel" []; chunk "assistant" "lo" []]
  ∧ history.Store (chat.text_message "assistant" "Hello") (history.New 3)
    = Ret (true, history.mk
                   (Some (ring.mk [Some (chat.text_message "assistant" "Hello");
                                   None; None] 1)) 6).
Proof.
  refine (_ (doStream_commits_once (backend := hello)
           (chat.New "s" "m" [chat.WithMaxHistory 3])
           {| Model := "m"; Messages := []; Stream := true; Tools := [] |}
           (λ _ _, None) []
           [chunk "assistant" "Hel" []; chunk "assistant" "lo" []]
           ∅
           (chat.with_history
              (history.mk
                 (Some (ring.mk [Some (chat.text_message "assistant" "Hello");
                                 None; None] 1)) 6)
              (chat.New "s" "m" [chat.WithMaxHistory 3]))
           ["Hel"; "lo"] eq_refl eq_refl)).
  intros (H1 & H2 & _). split; [exact H1|exact H2].
Defined.

(** X12 for a stream that delivers one tool call in two pieces. *)
Lemma doStream_map_keyed_witness :
  ID (delta "a" "echo" "{}") = "a" ∧ "a" ≠ "".
Proof.
  exact (doStream_map_keyed
           (backend := scripted (OK [chunk "assistant" "" [delta "a" "echo" "{"];
                                     chunk "" "" [delta "" "" "}"]]))
           (chat.New "s" "m" [chat.WithMaxHistory 3])
           {| Model := "m"; Messages := []; Stream := true; Tools := [] |}
           (λ _ _, None) []
           {["a" := delta "a" "echo" "{}"]}
           (chat.New "s" "m" [chat.WithMaxHistory 3])
           [] eq_refl "a" (delta "a" "echo" "{}") eq_refl).
Defined.

(** X13 for a response with two calls under one id and one without id. *)
Lemma do_keeps_first_call_witness :
  chat.collect_tool_calls
    [delta "a" "echo" "{}"; delta "a" "other" "{}"; delta "" "lost" "{}"] !! "a"
  = Some (delta "a" "echo" "{}").
Proof.
  exact (do_keeps_first_call
           (backend := complete (OK {| Choices :=
              [ {| MRole := "assistant";
                   MContent := Some {| StringValue := None |};
                   MToolCalls := [delta "a" "echo" "{}"; delta "a" "other" "{}";
                                  delta "" "lost" "{}"] |} ] |}))
           (chat.New "s" "m" [chat.WithMaxHistory 3])
           {| Model := "m"; Messages := []; Stream := false; Tools := [] |}
           (λ _ _, None) []
           {| Choices :=
              [ {| MRole := "assistant";
                   MContent := Some {| StringValue := None |};
                   MToolCalls := [delta "a" "echo" "{}"; delta "a" "other" "{}";
                                  delta "" "lost" "{}"] |} ] |}
           {| MRole := "assistant";
              MContent := Some {| StringValue := None |};
              MToolCalls := [delta "a" "echo" "{}"; delta "a" "other" "{}";
                             delta "" "lost" "{}"] |}
           []
           (chat.collect_tool_calls
              [delta "a" "echo" "{}"; delta "a" "other" "{}"; delta "" "lost" "{}"])
           (chat.New "s" "m" [chat.WithMaxHistory 3])
           [] eq_refl eq_refl eq_refl "a").
Defined.

(** X14 for a session that keeps two messages and holds one: the turn
    pushes the old message out. *)
Lemma turn_history_witness :
  chat.History
    (chat.mkChat
       (history.mk
          (Some (ring.mk [Some (chat.text_message "assistant" "Hello");
                          Some (chat.text_message "user" "hi")] 1)) 4)
       7 "your_api_key" "m" "s")
  = [chat.text_message "user" "hi"; chat.text_message "assistant" "Hello"]
  ∧ chat.LastMessage
      (chat.mkChat
         (history.mk
            (Some (ring.mk [Some (chat.text_message "assistant" "Hello");
                            Some (chat.text_message "user" "hi")] 1)) 4)
         7 "your_api_key" "m" "s")
    = 7.
Proof.
  destruct (turn_history (backend := hello) 7
              (chat.mkChat
                 (history.mk
                    (Some (ring.mk [Some (chat.text_message "user" "old"); None] 1)) 4)
                 0 "your_api_key" "m" "s")
              "hi" [chat.WithStream true] []
              [history.CallStoreMany [chat.text_message "user" "old"]] 2
              ∅
              (chat.mkChat
                 (history.mk
                    (Some (ring.mk [Some (chat.text_message "assistant" "Hello");
                                    Some (chat.text_message "user" "hi")] 1)) 4)
                 7 "your_api_key" "m" "s")
              ["Hel"; "lo"] ltac:(lia) eq_refl eq_refl eq_refl)
    as (h & stream & _ & _ & Hs & HH & HL).
  injection Hs as <-. split; [exact HH | exact HL].
Defined.

(** X16 for a response that carries only a tool call. *)
Lemma turn_nil_content_panics_witness :
  chat.Chat_Chat
    (backend := complete (OK {| Choices :=
       [ {| MRole := "assistant"; MContent := None;
            MToolCalls := [delta "a" "echo" "{}"] |} ] |}))
    7 (chat.New "s" "m" [chat.WithMaxHistory 3]) "hi" [] []
  = Panic.
Proof.
  exact (turn_nil_content_panics
           (backend := complete (OK {| Choices :=
              [ {| MRole := "assistant"; MContent := None;
                   MToolCalls := [delta "a" "echo" "{}"] |} ] |}))
           7 (chat.New "s" "m" [chat.WithMaxHistory 3]) "hi" [] []
           (history.mk
              (Some (ring.mk [Some (chat.text_message "user" "hi"); None; None] 1)) 6)
           {| Choices :=
              [ {| MRole := "assistant"; MContent := None;
                   MToolCalls := [delta "a" "echo" "{}"] |} ] |}
           {| MRole := "assistant"; MContent := None;
              MToolCalls := [delta "a" "echo" "{}"] |}
           [] eq_refl eq_refl eq_refl eq_refl eq_refl eq_refl).
Defined.
End reply_facts.

(** ** The registry: capacity, tools, streaming, the background loop *)

Module registry_facts.
Import model.

Section registry_facts.
Context {crypto : Crypto} {json : Json} {servers : ToolServers}.
Implicit Types (cm : llm.ChatsManager) (id : string).

(** X15: with [maxHistory] zero or negative, a call with a non-empty
    message for an id that has no session under its hashed key takes the
    process down: the session's buffer has the nil ring, and restoring a
    stored history or appending the user message writes through it. *)
Theorem zero_capacity_crashes {backend : Backend} (now1 now2 : Z) cm id
    (message : string) (w : WriteFunc) (sink : list string) :
  llm.chats cm !! GetSHA1 id = None →
  llm.maxHistory (llm.cnf cm) ≤ 0 →
  message ≠ "" →
  llm.ChatsManager_Chat now1 now2 cm id message w sink = Crashed.
Proof.
  intros Hmiss HC Hmsg. unfold llm.ChatsManager_Chat, llm.session. rewrite Hmiss.
  assert (history.data
            (chat.history
               (chat.New (GetSHA1 id) (llm.modelName (llm.cnf cm))
                  [chat.WithAPIKey (llm.apiKey (llm.cnf cm));
                   chat.WithMaxHistory (llm.maxHistory (llm.cnf cm))])) = None) as Hnil.
  { cbn. unfold ring.New. by rewrite decide_True. }
  destruct (match llm.Storage_Load _ _ with Error _ => _ | OK _ => _ end)
    as [his logs].
  destruct his as [|m his]; cbn [nonempty].
  - cbn [mbind res_mbind res_bind]. unfold chat.Chat_Chat, chat.append_turn.
    rewrite decide_True by done. unfold history.Store, history.put.
    cbn [chat.with_history chat.history] in *. by rewrite Hnil.
  - unfold chat.SetHistory. cbn [history.StoreMany]. unfold history.put.
    by rewrite Hnil.
Qed.

(** X17: on a registry whose tool client is as [mcpcli.New] made it,
    [InitMcp] registers nothing: it returns, with the registry as it
    was, when every URI is empty, and panics at the first non-empty
    one. *)
Theorem InitMcp_registers_nothing cm (mcpuri : list string) :
  llm.mcpCli cm = mcpcli.New →
  llm.InitMcp cm mcpuri
  = if forallb (λ u, bool_decide (u = "")) mcpuri then Ret cm else Panic.
Proof.
  intros Hnew. unfold llm.InitMcp. induction mcpuri as [|u us IH]; [done|].
  cbn [for_range forallb]. case_bool_decide as Hu.
  - subst u. rewrite mcpcli_facts.AddTools_empty. cbn [mbind res_mbind res_bind].
    replace (llm.mkChatsManager (llm.chats cm) (llm.mcpCli cm) (llm.cnf cm)
               (llm.logged cm)) with cm by by destruct cm.
    apply IH.
  - unfold mcpcli.AddTools. rewrite decide_False by done.
    rewrite Hnew, mcpcli_facts.loadTools_miss; done.
Qed.

Lemma Chat_Chat_streams (b1 b2 : Backend) (now : Z) c (message : string)
    (opts : list chat.Opts) (sink : list string) :
  (∀ req, CreateChatCompletionStream (Backend := b1) req
          = CreateChatCompletionStream (Backend := b2) req) →
  chat.stream (chat.options c opts) = true →
  chat.Chat_Chat (backend := b1) now c message opts sink
  = chat.Chat_Chat (backend := b2) now c message opts sink.
Proof.
  intros Hb Hs. unfold chat.Chat_Chat. rewrite Hs.
  destruct (chat.append_turn _ message _) as [h|]; [|done].
  cbn [mbind res_mbind res_bind]. unfold chat.doStream. by rewrite Hb.
Qed.

(** X18: while the tool client holds no tools, [Chat] makes streaming
    requests only: its outcome is the same against any two backends
    that answer streaming requests alike. *)
Theorem Chat_streams_only (b1 b2 : Backend) (now1 now2 : Z) cm id
    (message : string) (w : WriteFunc) (sink : list string) :
  (∀ req, CreateChatCompletionStream (Backend := b1) req
          = CreateChatCompletionStream (Backend := b2) req) →
  mcpcli.ToolCount (llm.mcpCli cm) = 0 →
  llm.ChatsManager_Chat (backend := b1) now1 now2 cm id message w sink
  = llm.ChatsManager_Chat (backend := b2) now1 now2 cm id message w sink.
Proof.
  intros Hb Hcount. unfold llm.ChatsManager_Chat.
  destruct (llm.session cm id) as [[[slot ch] cm1]|] eqn:Hs; [|done].
  assert (llm.mcpCli cm1 = llm.mcpCli cm) as Hm.
  { unfold llm.session in Hs. destruct (llm.chats cm !! GetSHA1 id).
    - by simplify_eq.
    - destruct (match llm.Storage_Load _ _ with Error _ => _ | OK _ => _ end)
        as [his logs].
      destruct (if nonempty his then _ else _); [|done].
      cbn in Hs. by simplify_eq. }
  rewrite Hm, Hcount.
  rewrite (Chat_Chat_streams b1 b2 now1) by done.
  destruct (chat.Chat_Chat now1 ch message _ sink) as [[[[toolcall|err] ch1] sink1]|];
    [|done|done].
  destruct (nonempty _); [|done].
  destruct (llm.dispatch _ _ _) as [[msgs logs]| |]; [|done|done].
  destruct (nonempty msgs); [|done].
  by rewrite (Chat_Chat_streams b1 b2 now2).
Qed.

(** *** The background loop *)

Lemma expired_sweep_one now cm kv (key : string) value :
  llm.expired now (llm.sweep_one now cm kv) key value = llm.expired now cm key value.
Proof.
  unfold llm.sweep_one. by destruct (llm.expired now cm kv.1 kv.2).
Qed.

Lemma sweep_chats now (l : list (string * chat.Chat)) cm (k : string) :
  NoDup l.*1 →
  llm.chats (foldl (llm.sweep_one now) cm l) !! k
  = match (list_to_map l : gmap string chat.Chat) !! k with
    | Some ch => if llm.expired now cm k ch then None else llm.chats cm !! k
    | None => llm.chats cm !! k
    end.
Proof.
  revert cm. induction l as [|[k0 ch0] l IH]; intros cm Hnd; [done|].
  apply NoDup_cons in Hnd as [Hnot Hnd]. cbn [foldl]. rewrite IH by done.
  cbn [list_to_map foldr uncurry]. fold (list_to_map (M := gmap string chat.Chat) l).
  destruct (decide (k = k0)) as [->|Hne].
  - rewrite lookup_insert_eq, (not_elem_of_list_to_map_1 _ _ Hnot).
    unfold llm.sweep_one. cbn [fst snd].
    destruct (llm.expired now cm k0 ch0); cbn; [by rewrite lookup_delete_eq|done].
  - rewrite lookup_insert_ne by done.
    assert (llm.chats (llm.sweep_one now cm (k0, ch0)) !! k = llm.chats cm !! k)
      as ->.
    { unfold llm.sweep_one. cbn [fst snd].
      destruct (llm.expired now cm k0 ch0); cbn; [by rewrite lookup_delete_ne|done]. }
    destruct (list_to_map l !! k) as [ch|]; [|done].
    by rewrite expired_sweep_one.
Qed.

(** X19: one tick of the background loop removes from the registry the
    sessions whose last message is older than [chatLifeTime], and keeps
    every other session as it is. *)
Theorem sweep_removes_expired now cm (k : string) :
  llm.chats (llm.sweep now cm) !! k
  = match llm.chats cm !! k with
    | Some ch => if llm.expired now cm k ch then None else Some ch
    | None => None
    end
  ∧ llm.mcpCli (llm.sweep now cm) = llm.mcpCli cm.
Proof.
  unfold llm.sweep. split.
  - rewrite sweep_chats by apply NoDup_fst_map_to_list.
    rewrite list_to_map_to_list. by destruct (llm.chats cm !! k).
  - generalize (map_to_list (llm.chats cm)). intros l. revert cm.
    induction l as [|kv l IH]; intros cm; [done|]. cbn [foldl]. rewrite IH.
    unfold llm.sweep_one. by destruct (llm.expired _ _ _ _).
Qed.

Lemma sweep_memory now (l : list (string * chat.Chat)) cm
    (s : storage.MemoryStorage) :
  NoDup l.*1 →
  llm.dataStorage (llm.cnf cm) = storage.mkStorage _ storage.memory_storage s →
  ∃ s', llm.dataStorage (llm.cnf (foldl (llm.sweep_one now) cm l))
        = storage.mkStorage _ storage.memory_storage s'
        ∧ ∀ k : string,
            storage.MemoryStorage_Load k s'
            = match (list_to_map l : gmap string chat.Chat) !! k with
              | Some ch => if llm.expired now cm k ch
                           then storage.MemoryStorage_Load k s
                           else OK (chat.History ch)
              | None => storage.MemoryStorage_Load k s
              end.
Proof.
  revert cm s. induction l as [|[k0 ch0] l IH]; intros cm s Hnd Hst.
  - exists s. split; [done|]. intros k. done.
  - apply NoDup_cons in Hnd as [Hnot Hnd]. cbn [foldl].
    assert (∃ s1, llm.dataStorage (llm.cnf (llm.sweep_one now cm (k0, ch0)))
                  = storage.mkStorage _ storage.memory_storage s1
                  ∧ s1 = (if llm.expired now cm k0 ch0 then s
                          else (storage.MemoryStorage_Store k0 (chat.History ch0) s).2))
      as (s1 & Hst1 & Hs1).
    { unfold llm.sweep_one. cbn [fst snd].
      destruct (llm.expired now cm k0 ch0); [by exists s|].
      eexists. split; [|done]. rewrite Hst. reflexivity. }
    destruct (IH _ s1 Hnd Hst1) as (s' & Hst' & Hload). exists s'.
    split; [done|]. intros k. rewrite Hload.
    cbn [list_to_map foldr uncurry].
    fold (list_to_map (M := gmap string chat.Chat) l).
    destruct (decide (k = k0)) as [->|Hne].
    + rewrite lookup_insert_eq, (not_elem_of_list_to_map_1 _ _ Hnot). subst s1.
      cbn [fst snd]. destruct (llm.expired now cm k0 ch0); [done|].
      apply storage_facts.MemoryStorage_roundtrip.
    + rewrite lookup_insert_ne by done.
      assert (storage.MemoryStorage_Load k s1 = storage.MemoryStorage_Load k s) as ->.
      { subst s1. destruct (llm.expired now cm k0 ch0); [done|].
        by apply storage_facts.MemoryStorage_other. }
      destruct (list_to_map l !! k) as [ch|]; [|done].
      by rewrite expired_sweep_one.
Qed.

(** X20: with memory storage, one tick of the background loop files the
    history of every session it keeps under the key the registry holds
    the session at, and leaves every other key of the storage as it
    was -- the hashed key that [Chat] restores from among them, unless
    the registry holds a session at that very key. *)
Theorem sweep_persists_memory now cm (s : storage.MemoryStorage) (k id : string) :
  llm.dataStorage (llm.cnf cm) = storage.mkStorage _ storage.memory_storage s →
  llm.Storage_Load (llm.dataStorage (llm.cnf (llm.sweep now cm))) k
  = match llm.chats cm !! k with
    | Some ch => if llm.expired now cm k ch
                 then llm.Storage_Load (llm.dataStorage (llm.cnf cm)) k
                 else OK (chat.History ch)
    | None => llm.Storage_Load (llm.dataStorage (llm.cnf cm)) k
    end
  ∧ (llm.chats cm !! GetSHA1 id = None →
     llm.Storage_Load (llm.dataStorage (llm.cnf (llm.sweep now cm))) (GetSHA1 id)
     = llm.Storage_Load (llm.dataStorage (llm.cnf cm)) (GetSHA1 id)).
Proof.
  intros Hst. unfold llm.sweep.
  destruct (sweep_memory now (map_to_list (llm.chats cm)) cm s
              (NoDup_fst_map_to_list _) Hst) as (s' & Hst' & Hload).
  rewrite list_to_map_to_list in Hload.
  unfold llm.Storage_Load. rewrite Hst', Hst.
  cbn [storage.impl_ops storage.self storage.Load storage.memory_storage].
  split; [apply Hload|]. intros Hmiss. by rewrite Hload, Hmiss.
Qed.

End registry_facts.

Import demo.

(** X15 for a registry made with [WithMaxHistory(0)]. *)
Lemma zero_capacity_crashes_witness :
  llm.ChatsManager_Chat (backend := hello) 1 2
    (llm.NewChatsManager [llm.WithMaxHistory 0]) "user-123" "hi" (λ _ _, None) []
  = Crashed.
Proof.
  apply (zero_capacity_crashes (backend := hello) 1 2
           (llm.NewChatsManager [llm.WithMaxHistory 0]) "user-123" "hi").
  - reflexivity.
  - cbn. lia.
  - discriminate.
Defined.

(** X17 for a new registry and one server address between two empty
    ones. *)
Lemma InitMcp_registers_nothing_witness :
  llm.InitMcp (llm.NewChatsManager []) [""; "http://127.0.0.1:8080/sse"; ""] = Panic.
Proof.
  exact (InitMcp_registers_nothing (llm.NewChatsManager [])
           [""; "http://127.0.0.1:8080/sse"; ""] eq_refl).
Defined.

(** X18 for two backends that stream [Hello] and differ in their
    complete responses. *)
Lemma Chat_streams_only_witness :
  llm.ChatsManager_Chat (backend := hello) 1 2
    (llm.NewChatsManager []) "user-123" "hi" (λ _ _, None) []
  = llm.ChatsManager_Chat
      (backend := {| CreateChatCompletionStream :=
                       CreateChatCompletionStream (Backend := hello);
                     CreateChatCompletion _ := OK {| Choices := [] |} |})
      1 2 (llm.NewChatsManager []) "user-123" "hi" (λ _ _, None) [].
Proof.
  apply (Chat_streams_only hello
           {| CreateChatCompletionStream :=
                CreateChatCompletionStream (Backend := hello);
              CreateChatCompletion _ := OK {| Choices := [] |} |}
           1 2 (llm.NewChatsManager []) "user-123" "hi").
  - intros req. reflexivity.
  - reflexivity.
Defined.


(** X20 for a registry that holds one session, at the caller's id. *)
Lemma sweep_persists_memory_witness :
  llm.Storage_Load
    (llm.dataStorage
       (llm.cnf
          (llm.sweep (λ _, 10)
             (llm.put_session "user-123"
                (chat.mkChat
                   (history.mk
                      (Some (ring.mk [Some (chat.text_message "user" "hi"); None] 1)) 4)
                   5 "your_api_key" "qwen3:8b" "user-123")
                [] (llm.NewChatsManager [])))))
    "user-123"
  = OK [chat.text_message "user" "hi"]
  ∧ llm.Storage_Load
      (llm.dataStorage
         (llm.cnf
            (llm.sweep (λ _, 10)
               (llm.put_session "user-123"
                  (chat.mkChat
                     (history.mk
                        (Some (ring.mk [Some (chat.text_message "user" "hi"); None] 1)) 4)
                     5 "your_api_key" "qwen3:8b" "user-123")
                  [] (llm.NewChatsManager [])))))
      (GetSHA1 "user-123")
    = OK [].
Proof.
  destruct (sweep_persists_memory (λ _, 10)
              (llm.put_session "user-123"
                 (chat.mkChat
                    (history.mk
                       (Some (ring.mk [Some (chat.text_message "user" "hi"); None] 1)) 4)
                    5 "your_api_key" "qwen3:8b" "user-123")
                 [] (llm.NewChatsManager []))
              storage.NewMemoryStorage "user-123" "user-123" eq_refl) as [H1 H2].
  split; [exact H1|]. apply H2. vm_compute. reflexivity.
Defined.
End registry_facts.

(** ** The storages as registers *)

Module register_facts.
Import model.

(** X21: a [MemoryStorage] is one register per key: after any sequence
    of [Store] and [Clear] calls, [Load] returns without error the list
    of the last [Store] to that key since the last [Clear], and the
    empty list if there was none and the key held nothing before. *)
Theorem MemoryStorage_last_stored (cs : list storage.memory_call)
    (s : storage.MemoryStorage) (chatid : string) :
  storage.MemoryStorage_Load chatid (foldl storage.memory_exec s cs)
  = OK (storage.last_stored chatid (default [] (storage.data s !! chatid)) cs).
Proof.
  revert s. induction cs as [|c cs IH]; intros s.
  - cbn. unfold storage.MemoryStorage_Load. by destruct (storage.data s !! chatid).
  - cbn [foldl storage.last_stored]. rewrite IH.
    fold (storage.last_stored chatid). do 2 f_equal.
    destruct c as [k msg|]; cbn [storage.memory_exec].
    + pose proof (storage_facts.MemoryStorage_roundtrip k msg s) as Hsame.
      pose proof (storage_facts.MemoryStorage_other k chatid msg s) as Hother.
      unfold storage.MemoryStorage_Load in Hsame, Hother.
      case_decide as Hk.
      * subst k. destruct (storage.data _ !! chatid); by simplify_eq.
      * specialize (Hother ltac:(done)).
        destruct (storage.data (storage.MemoryStorage_Store k msg s).2 !! chatid),
          (storage.data s !! chatid); by simplify_eq.
    + done.
Qed.

Lemma append_inj_r (p a b : string) : p +:+ a = p +:+ b → a = b.
Proof.
  induction p as [|x p IH]; [done|].
  change (String x (p +:+ a) = String x (p +:+ b) → a = b).
  intros [= H]. by apply IH.
Qed.

Section redis.
Context {json : Json} {json_list : JsonList}.
Implicit Types (srv : storage.Redis) (opts : list storage.Opts).

Lemma NewRedisStorage_key opts :
  storage.historyKey (storage.NewRedisStorage opts)
  = storage.chatHistoryPrefix
    +:+ storage.historySuffix (storage.cnf (storage.NewRedisStorage opts)).
Proof. done. Qed.

Lemma Load_HSet (s s' : storage.RedisStorage) (chatid other val : string) srv :
  storage.RedisStorage_Load s' other (storage.HSet (storage.historyKey s) chatid val srv)
  = if decide (storage.historyKey s' = storage.historyKey s ∧ other = chatid)
    then UnmarshalMessages val
    else storage.RedisStorage_Load s' other srv.
Proof.
  unfold storage.RedisStorage_Load, storage.HGet, storage.HSet, storage.Redis in *.
  destruct (decide (storage.historyKey s' = storage.historyKey s)) as [->|Hk].
  - rewrite lookup_insert_eq. cbn [mbind option_bind].
    destruct (decide (other = chatid)) as [->|Hc].
    + rewrite lookup_insert_eq. by rewrite decide_True.
    + rewrite lookup_insert_ne by done. rewrite decide_False; [|by intros [_ ?]].
      by destruct (srv !! storage.historyKey s).
  - rewrite lookup_insert_ne by done. rewrite decide_False; [done|by intros [? _]].
Qed.

(** X22: on a storage that [NewRedisStorage] built, [Store] of a list
    that can be encoded files the text under the chat id, and [Load] of
    that id decodes this text; every other chat id of the storage, and
    every chat id of a storage built with another suffix on the same
    server, loads what it loaded before. *)
Theorem Redis_Store_then_Load opts (chatid : string) msgs (data : string) srv :
  MarshalMessages msgs = OK data →
  ∃ srv',
    storage.RedisStorage_Store (storage.NewRedisStorage opts) chatid msgs srv
    = (None, srv')
    ∧ storage.RedisStorage_Load (storage.NewRedisStorage opts) chatid srv'
      = UnmarshalMessages data
    ∧ (∀ other : string, other ≠ chatid →
         storage.RedisStorage_Load (storage.NewRedisStorage opts) other srv'
         = storage.RedisStorage_Load (storage.NewRedisStorage opts) other srv)
    ∧ (∀ opts' (other : string),
         storage.historySuffix (storage.cnf (storage.NewRedisStorage opts'))
         ≠ storage.historySuffix (storage.cnf (storage.NewRedisStorage opts)) →
         storage.RedisStorage_Load (storage.NewRedisStorage opts') other srv'
         = storage.RedisStorage_Load (storage.NewRedisStorage opts') other srv).
Proof.
  intros Hm. unfold storage.RedisStorage_Store. rewrite Hm. eexists.
  split; [done|]. split; [|split].
  - rewrite Load_HSet. by rewrite decide_True.
  - intros other Hne. rewrite Load_HSet. rewrite decide_False; [done|by intros [_ ?]].
  - intros opts' other Hne. rewrite Load_HSet. rewrite decide_False; [done|].
    intros [Hk _]. rewrite !NewRedisStorage_key in Hk. by apply append_inj_r in Hk.
Qed.

(** X23: on a storage that [NewRedisStorage] built, [Clear] removes what
    [Store] filed: afterwards [Load] returns the error [redis.Nil] for
    every chat id, as it does for a chat id that was never stored, while
    a storage built with another suffix loads what it loaded before. *)
Theorem Redis_Clear_then_Load opts srv (chatid : string) :
  ∃ srv',
    storage.RedisStorage_Clear (storage.NewRedisStorage opts) srv = (None, srv')
    ∧ storage.RedisStorage_Load (storage.NewRedisStorage opts) chatid srv'
      = Error storage.redis_Nil
    ∧ storage.RedisStorage_Load (storage.NewRedisStorage opts) chatid ∅
      = Error storage.redis_Nil
    ∧ (∀ opts' (other : string),
         storage.historySuffix (storage.cnf (storage.NewRedisStorage opts'))
         ≠ storage.historySuffix (storage.cnf (storage.NewRedisStorage opts)) →
         storage.RedisStorage_Load (storage.NewRedisStorage opts') other srv'
         = storage.RedisStorage_Load (storage.NewRedisStorage opts') other srv).
Proof.
  eexists. split; [done|].
  unfold storage.RedisStorage_Load, storage.HGet, storage.Del, storage.Redis in *.
  rewrite <- NewRedisStorage_key. split; [|split].
  - by rewrite lookup_delete_eq.
  - by rewrite lookup_empty.
  - intros opts' other Hne. rewrite lookup_delete_ne; [done|].
    intros Hk. rewrite !NewRedisStorage_key in Hk. by apply append_inj_r in Hk.
Qed.
End redis.

Section registry.
Context {crypto : Crypto} {json : Json} {json_list : JsonList} {servers : ToolServers}.

(** X24: with a Redis storage that holds nothing under the hashed key,
    a call for an id that is new to the registry logs the error
    [redis: nil] of the failed [Load] and goes on with a session whose
    history is empty. *)
Theorem session_redis_first_contact (cm : llm.ChatsManager) (id : string) opts srv :
  llm.dataStorage (llm.cnf cm)
  = storage.mkStorage _ storage.redis_storage (storage.NewRedisStorage opts, srv) →
  llm.chats cm !! GetSHA1 id = None →
  (srv !! storage.historyKey (storage.NewRedisStorage opts)
     ≫= λ h, h !! GetSHA1 id) = None →
  ∃ ch cm1,
    llm.session cm id = Ret (id, ch, cm1)
    ∧ chat.History ch = []
    ∧ llm.logged cm1 = llm.logged cm ++ ["load chat history error: redis: nil"].
Proof.
  intros Hst Hmiss Hnone. unfold llm.session. rewrite Hmiss.
  unfold llm.Storage_Load. rewrite Hst.
  cbn [storage.impl_ops storage.self storage.Load storage.redis_storage fst snd].
  unfold storage.RedisStorage_Load, storage.HGet. rewrite Hnone.
  cbn [nonempty mbind res_mbind res_bind]. eexists _, _. split; [done|].
  split; [|done]. unfold chat.History. cbn [chat.New chat.history].
  destruct (decide (1 ≤ llm.maxHistory (llm.cnf cm))) as [HC|HC].
  - destruct (history_facts.StoreMany_New (A := ChatCompletionMessage)
                (llm.maxHistory (llm.cnf cm)) [] HC)
      as (u & Hu & HS).
    injection Hu as <-. exact HS.
  - apply history_facts.Slice_nil. cbn. unfold ring.New.
    rewrite decide_True; [done|lia].
Qed.
End registry.

Import demo.

(** X22 for one message stored under [a], next to [b] and to the
    storage with suffix [other]. *)
Lemma Redis_Store_then_Load_witness :
  storage.RedisStorage_Load (storage.NewRedisStorage []) "a"
    (storage.RedisStorage_Store (storage.NewRedisStorage []) "a"
       [chat.text_message "user" "hi"] ∅).2
  = OK [chat.text_message "user" "hi"]
  ∧ storage.RedisStorage_Load (storage.NewRedisStorage []) "b"
      (storage.RedisStorage_Store (storage.NewRedisStorage []) "a"
         [chat.text_message "user" "hi"] ∅).2
    = Error storage.redis_Nil
  ∧ storage.RedisStorage_Load
      (storage.NewRedisStorage [storage.WithHistorySuffix "other"]) "a"
      (storage.RedisStorage_Store (storage.NewRedisStorage []) "a"
         [chat.text_message "user" "hi"] ∅).2
    = Error storage.redis_Nil.
Proof.
  destruct (Redis_Store_then_Load (json := json) (json_list := json_list)
              [] "a" [chat.text_message "user" "hi"]
              "[{user:hi:}]" ∅ eq_refl) as (srv' & Hs & H1 & H2 & H3).
  injection Hs as <-. split; [exact H1|]. split.
  - exact (H2 "b" ltac:(discriminate)).
  - exact (H3 [storage.WithHistorySuffix "other"] "a" ltac:(discriminate)).
Defined.

(** X24 for a new registry on an empty server. *)
Lemma session_redis_first_contact_witness :
  ∃ ch cm1,
    llm.session
      (llm.NewChatsManager
         [llm.WithStorage
            (storage.mkStorage _ storage.redis_storage
               (storage.NewRedisStorage [], ∅))])
      "user-123"
    = Ret ("user-123", ch, cm1)
    ∧ chat.History ch = []
    ∧ llm.logged cm1 = ["load chat history error: redis: nil"].
Proof.
  exact (session_redis_first_contact
           (llm.NewChatsManager
              [llm.WithStorage
                 (storage.mkStorage _ storage.redis_storage
                    (storage.NewRedisStorage [], ∅))])
           "user-123" [] ∅ eq_refl eq_refl eq_refl).
Defined.
End register_facts.
